(** * gitlabber: the tree of groups and projects, its filter, its builder,
      its export and import, and the per-leaf git synchronisation.

    A shallow embedding of [gitlabber/gitlab_tree.py] and [gitlabber/git.py].
    Part I holds the definitions, in the order of the two source files;
    Part II holds the properties proved about them. *)

From Stdlib Require Import String Ascii List Bool ZArith Lia.
Import ListNotations.
Local Open Scope string_scope.
Local Open Scope list_scope.

(* ================================================================== *)
(** * Part I: definitions *)
(* ================================================================== *)

(** ** Python string helpers used by the two files *)

Module PyStr.

(** [sep.join(parts)] *)
Definition join (sep : string) (parts : list string) : string :=
  String.concat sep parts.

(** [s.startswith(prefix)] *)
Definition startswith (s prefix : string) : bool := String.prefix prefix s.

(** [s[n:]] *)
Fixpoint drop (n : nat) (s : string) : string :=
  match n, s with
  | O, _ => s
  | S _, EmptyString => EmptyString
  | S k, String _ rest => drop k rest
  end.

(** [s.endswith(c)] for a one-character [c] *)
Fixpoint endswith_char (c : ascii) (s : string) : bool :=
  match s with
  | EmptyString => false
  | String a EmptyString => Ascii.eqb a c
  | String _ rest => endswith_char c rest
  end.

(** [s.replace(a, b)] for one-character [a] and [b] *)
Fixpoint replace_char (a b : ascii) (s : string) : string :=
  match s with
  | EmptyString => EmptyString
  | String c rest =>
      String (if Ascii.eqb c a then b else c) (replace_char a b rest)
  end.

(** [s.split(c)] for a one-character separator: the pieces between the
    separators, empty pieces included; the empty string gives one empty
    piece. [cur] holds, reversed, the characters of the piece being read. *)
Fixpoint split_aux (c : ascii) (cur : list ascii) (s : string) : list string :=
  match s with
  | EmptyString => [string_of_list_ascii (rev cur)]
  | String a rest =>
      if Ascii.eqb a c
      then string_of_list_ascii (rev cur) :: split_aux c [] rest
      else split_aux c (a :: cur) rest
  end.

Definition split (c : ascii) (s : string) : list string := split_aux c [] s.

(** Truth value of a string: the empty string is false. *)
Definition truthy (s : string) : bool :=
  match s with EmptyString => false | _ => true end.

(** [os.path.join(a, *p)] of [posixpath]. *)
Fixpoint os_path_join (a : string) (p : list string) : string :=
  match p with
  | [] => a
  | b :: rest =>
      if startswith b "/" then os_path_join b rest
      else if negb (truthy a) || endswith_char "/" a
           then os_path_join (a ++ b) rest
           else os_path_join (a ++ "/" ++ b) rest
  end.

(** [os.path.pardir] *)
Definition pardir : string := "..".

End PyStr.

(** ** The tree: [anytree.Node] with the attributes gitlabber puts on it *)

(** A node carries [name], and the keyword attributes [url], [type] and
    [root_path]; [default_branch] and [protected_branches] are set by
    [make_node] only when they are truthy, so they are optional. The children
    are kept in attachment order. *)
Unset Elimination Schemes.
Inductive Node : Type :=
  mkNode {
      name : string;
      type_ : string;
      url : string;
      root_path : string;
      default_branch : option string;
      protected_branches : option (list string);
      children : list Node
    }.
Set Elimination Schemes.

(** [node.is_leaf] *)
Definition is_leaf (n : Node) : bool :=
  match children n with [] => true | _ => false end.

(** The node with another list of children; every other attribute is kept. *)
Definition with_children (n : Node) (cs : list Node) : Node :=
  mkNode (name n) (type_ n) (url n) (root_path n)
         (default_branch n) (protected_branches n) cs.

(** Structural induction over the nested list of children. *)
Section NodeInduction.
Variable P : Node -> Prop.
Hypothesis step :
  forall n t u r d p cs, Forall P cs -> P (mkNode n t u r d p cs).

Fixpoint Node_ind_nested (x : Node) : P x :=
  match x with
  | mkNode n t u r d p cs =>
      step n t u r d p cs
        ((fix go (l : list Node) : Forall P l :=
            match l with
            | [] => Forall_nil P
            | c :: l' => Forall_cons c (Node_ind_nested c) (go l')
            end) cs)
  end.
End NodeInduction.

(** The external matchers: [globre.match(pattern, string)] read as a truth
    value, and [fnmatch.fnmatch(name, pattern)]. Their dialects belong to the
    libraries; the program only asks whether a match was found. *)
Class Matchers : Type := {
    globre_match : string -> string -> bool;
    fnmatch : string -> string -> bool
  }.

(** Folder naming and clone method, the two enumerations the builder reads. *)
Inductive FolderNaming : Type := NAME | PATH | BRANCH.
Inductive CloneMethod : Type := SSH | HTTP.

(** ** [class GitlabTree]: the fields of [self] the modelled methods read *)
Record GitlabTree : Type :=
  mkGitlabTree {
      includes : list string;
      excludes : list string;
      self_url : string;
      root : Node;
      method : CloneMethod;
      naming : option FolderNaming;
      in_file : option string;
      token : option string;
      concurrency : nat;
      recursive : bool;
      disable_progress : bool;
      include_shared : bool;
      use_fetch : bool;
      hide_token : bool;
      user_projects : bool;
      git_options : option string;
      track_protected_branches : bool
    }.

(** The root made by [__init__]: [Node("", root_path="", url=url, type="root")] *)
Definition initial_root (u : string) : Node :=
  mkNode "" "root" u "" None None [].

Section Filter.
Context {M : Matchers}.

(** [GitlabTree.is_included] *)
Definition is_included (self : GitlabTree) (node : Node) : bool :=
  match includes self with
  | [] => true
  | _ =>
      (fix loop (l : list string) : bool :=
         match l with
         | [] => false
         | include :: rest =>
             if globre_match include (root_path node) then true else loop rest
         end) (includes self)
  end.

(** [GitlabTree.is_excluded] *)
Definition is_excluded (self : GitlabTree) (node : Node) : bool :=
  match excludes self with
  | [] => false
  | _ =>
      (fix loop (l : list string) : bool :=
         match l with
         | [] => false
         | exclude :: rest =>
             if globre_match exclude (root_path node) then true else loop rest
         end) (excludes self)
  end.

(** [GitlabTree.filter_tree]. [parent.children] is a tuple made when the
    loop starts, so the loop visits every child the parent had, in order;
    [child.parent = None] takes the child out of the parent's list, which
    here is the child left out of the list that is returned. The function
    returns the parent as the in-place edit leaves it. *)
Fixpoint filter_tree (self : GitlabTree) (parent : Node) : Node :=
  match parent with
  | mkNode n t u r d p cs =>
      mkNode n t u r d p
        ((fix loop (l : list Node) : list Node :=
            match l with
            | [] => []
            | child :: rest =>
                if negb (is_leaf child) then
                  let child' := filter_tree self child in
                  if is_leaf child' then
                    if negb (is_included self child') || is_excluded self child'
                    then loop rest
                    else child' :: loop rest
                  else child' :: loop rest
                else
                  if negb (is_included self child) || is_excluded self child
                  then loop rest
                  else child :: loop rest
            end) cs)
  end.

End Filter.

(** ** The tree builder *)

(** *** What the remote API answers

    The builder only consumes the answers of the GitLab client, so the remote
    is given as the finite tree of those answers: every listing either
    returns its items, raises [GitlabListError] with a response code, or
    raises something else. *)
Inductive Listing (A : Type) : Type :=
| Listed (items : list A)
| RaisesGitlabListError (response_code : Z)
| RaisesOther.
Arguments Listed {A} items.
Arguments RaisesGitlabListError {A} response_code.
Arguments RaisesOther {A}.

(** Answer of [gitlab.groups.get(id)]. *)
Inductive Fetched (A : Type) : Type :=
| Got (item : A)
| RaisesGitlabGetError (response_code : Z)
| RaisesOtherOnGet.
Arguments Got {A} item.
Arguments RaisesGitlabGetError {A} response_code.
Arguments RaisesOtherOnGet {A}.

(** Answer of [gitlab.projects.get(project.id)] followed by
    [project.protectedbranches.list()]. *)
Inductive ProtectedAnswer : Type :=
| ProtectedNames (names : list string)
| RaisesGitlabHttpError (response_code : Z)
| RaisesOtherOnProtected.

Record Project : Type :=
  mkProject {
      project_name : string;
      project_path : string;
      ssh_url_to_repo : string;
      http_url_to_repo : string;
      project_default_branch : option string;
      protectedbranches : ProtectedAnswer
    }.

Unset Elimination Schemes.
Inductive Group : Type :=
  mkGroup (group_name group_path web_url : string)
          (parent_id : option Z)
          (subgroups : Listing (Fetched Group))
          (projects : Listing Project)
          (shared_projects : option (Listing Project)).
Set Elimination Schemes.

Definition group_name (g : Group) : string :=
  match g with mkGroup n _ _ _ _ _ _ => n end.
Definition group_path (g : Group) : string :=
  match g with mkGroup _ p _ _ _ _ _ => p end.
Definition web_url (g : Group) : string :=
  match g with mkGroup _ _ w _ _ _ _ => w end.
Definition parent_id (g : Group) : option Z :=
  match g with mkGroup _ _ _ i _ _ _ => i end.
Definition projects (g : Group) : Listing Project :=
  match g with mkGroup _ _ _ _ _ p _ => p end.
Definition shared_projects (g : Group) : option (Listing Project) :=
  match g with mkGroup _ _ _ _ _ _ s => s end.

(** [gitlab.users.get(...)], [user.username] and [user.projects.list(...)]:
    [None] when one of them raises. *)
Definition UserAnswer : Type := option (string * list Project).

(** *** Paths *)

(** Truth value of an optional string and of an optional list. *)
Definition truthy_opt (o : option string) : bool :=
  match o with Some s => PyStr.truthy s | None => false end.

Definition truthy_list {A : Type} (o : option (list A)) : bool :=
  match o with Some (_ :: _) => true | _ => false end.

(** [GitlabTree.root_path(node, default_branch)]. [path_names] is
    [[str(n.name) for n in node.path]]: the names of the nodes from the root
    down to the node itself. (The attribute of the same name is the field
    [root_path] of [Node].) *)
Definition root_path_of (path_names : list string)
           (default_branch : option string) : string :=
  let parts :=
    match default_branch with
    | Some b => if PyStr.truthy b then path_names ++ [b] else path_names
    | None => path_names
    end in
  PyStr.join "/" parts.

(** [GitlabTree.make_node]. The new node is attached under [parent], so its
    [path] is the parent's path followed by the node; [parent_path] holds the
    names along the parent's path. The node starts without children. *)
Definition make_node (type name : string) (parent_path : list string)
           (url : string) (default_branch : option string)
           (protected_branches : option (list string)) : Node :=
  mkNode name type url
         (root_path_of (parent_path ++ [name]) default_branch)
         (if truthy_opt default_branch then default_branch else None)
         (if truthy_list protected_branches then protected_branches else None)
         [].

(** [s.replace('://', new)] *)
Fixpoint replace_scheme_sep (new s : string) : string :=
  match s with
  | String ":" (String "/" (String "/" rest)) => new ++ replace_scheme_sep new rest
  | String c rest => String c (replace_scheme_sep new rest)
  | EmptyString => EmptyString
  end.

(** *** [add_projects], [get_projects], [get_subgroups] *)

(** The nodes one project contributes: one node, or none when the body of the
    [try] raised and the project was skipped. *)
Definition add_project (self : GitlabTree) (parent_path : list string)
           (project : Project) : list Node :=
  let project_id :=
    match naming self with
    | Some NAME => project_name project
    | _ => project_path project
    end in
  let project_url :=
    match method self with
    | SSH => ssh_url_to_repo project
    | HTTP => http_url_to_repo project
    end in
  let project_url :=
    match token self, method self with
    | Some tok, HTTP =>
        if negb (hide_token self)
        then replace_scheme_sep ("://gitlab-token:" ++ tok ++ "@") project_url
        else project_url
    | _, _ => project_url
    end in
  let default_branch :=
    match naming self with
    | Some BRANCH => project_default_branch project
    | _ => None
    end in
  let protected : option (option (list string)) :=
    if track_protected_branches self then
      match protectedbranches project with
      | ProtectedNames names => Some (Some names)
      | RaisesGitlabHttpError code =>
          if Z.eqb code 403 then Some None else None
      | RaisesOtherOnProtected => None
      end
    else Some None in
  match protected with
  | Some protected_branches =>
      [make_node "project" project_id parent_path project_url
                 default_branch protected_branches]
  | None => []
  end.

(** [GitlabTree.add_projects]: the nodes attached under [parent], in order. *)
Definition add_projects (self : GitlabTree) (parent_path : list string)
           (projects : list Project) : list Node :=
  flat_map (add_project self parent_path) projects.

(** [GitlabTree.get_projects]: the nodes attached under [parent], and whether
    an exception leaves the method ([GitlabListError] is caught inside). *)
Definition get_projects (self : GitlabTree) (group : Group)
           (parent_path : list string) : list Node * bool :=
  match projects group with
  | Listed ps =>
      let own := add_projects self parent_path ps in
      if include_shared self then
        match shared_projects group with
        | Some (Listed shared) =>
            (own ++ add_projects self parent_path shared, false)
        | Some (RaisesGitlabListError _) => (own, false)
        | Some RaisesOther => (own, true)
        | None => (own, false)
        end
      else (own, false)
  | RaisesGitlabListError _ => ([], false)
  | RaisesOther => ([], true)
  end.

(** [GitlabTree.get_subgroups]: the nodes attached under [parent], and whether
    an exception leaves the method. A subgroup node is attached before its
    own subgroups and projects are read, so it stays in the tree with the
    children it has received when an exception passes through it. *)
Fixpoint get_subgroups (self : GitlabTree) (group : Group)
         (parent_path : list string) : list Node * bool :=
  match group with
  | mkGroup _ _ _ _ subgroups _ _ =>
      match subgroups with
      | Listed defs =>
          (fix loop (l : list (Fetched Group)) : list Node * bool :=
             match l with
             | [] => ([], false)
             | Got subgroup :: rest =>
                 let subgroup_id :=
                   match naming self with
                   | Some NAME => group_name subgroup
                   | _ => group_path subgroup
                   end in
                 let node :=
                   make_node "subgroup" subgroup_id parent_path
                             (web_url subgroup) None None in
                 let node_path := parent_path ++ [name node] in
                 let (subs, raised) := get_subgroups self subgroup node_path in
                 if raised then ([with_children node subs], true)
                 else
                   let (projs, raised') := get_projects self subgroup node_path in
                   if raised' then ([with_children node (subs ++ projs)], true)
                   else
                     let (more, raised'') := loop rest in
                     (with_children node (subs ++ projs) :: more, raised'')
             | RaisesGitlabGetError _ :: rest => loop rest
             | RaisesOtherOnGet :: rest => ([], true)
             end) defs
      | RaisesGitlabListError _ => ([], false)
      | RaisesOther => ([], true)
      end
  end.

(** The group node of [load_gitlab_tree] with everything below it. Whatever
    exception leaves [get_subgroups] or [get_projects] is caught by the loop
    over the groups, so only the node is returned. *)
Definition load_group (self : GitlabTree) (root_path_names : list string)
           (group : Group) : list Node :=
  match parent_id group with
  | None =>
      let group_id :=
        match naming self with
        | Some NAME => group_name group
        | _ => group_path group
        end in
      let node :=
        make_node "group" group_id root_path_names (web_url group) None None in
      let node_path := root_path_names ++ [name node] in
      let (subs, raised) := get_subgroups self group node_path in
      if raised then [with_children node subs]
      else
        let (projs, _) := get_projects self group node_path in
        [with_children node (subs ++ projs)]
  | Some _ => []
  end.

(** [GitlabTree.load_gitlab_tree]: the root after the load. *)
Definition load_gitlab_tree (self : GitlabTree) (groups : Listing Group) : Node :=
  match groups with
  | Listed gs =>
      with_children (root self)
        (children (root self) ++
         flat_map (load_group self [name (root self)]) gs)
  | _ => root self
  end.

(** [GitlabTree.load_user_tree]: the root after the load. *)
Definition load_user_tree (self : GitlabTree) (user : UserAnswer) : Node :=
  match user with
  | Some (username, projects) =>
      let node :=
        make_node "group" (username ++ "-personal-projects")
                  [name (root self)]
                  (self_url self ++ "/users/" ++ username ++ "/projects")
                  None None in
      let node_path := [name (root self)] ++ [name node] in
      with_children (root self)
        (children (root self) ++
         [with_children node (add_projects self node_path projects)])
  | None => root self
  end.

(** ** Export and import of the tree *)

(** The mapping exchanged with [yaml] and [json]: the attributes of a node
    under their names, and the exports of its children under the key
    [children]. The key [children] is kept apart from the other keys; the
    values of the other keys are strings or lists of strings. *)
Inductive Attr : Type :=
| AStr (s : string)
| AList (l : list string).

Unset Elimination Schemes.
Inductive Dict : Type :=
  mkDict (items : list (string * Attr)) (children_item : option (list Dict)).
Set Elimination Schemes.

Definition items (d : Dict) : list (string * Attr) :=
  match d with mkDict i _ => i end.
Definition children_item (d : Dict) : option (list Dict) :=
  match d with mkDict _ c => c end.

(** [d.get(key)] on the attribute items. *)
Fixpoint get (key : string) (l : list (string * Attr)) : option Attr :=
  match l with
  | [] => None
  | (k, v) :: rest => if String.eqb k key then Some v else get key rest
  end.

(** [anytree.exporter.DictExporter().export(node)]: every attribute the node
    carries, and the key [children] only when the node has children. *)
Fixpoint export (node : Node) : Dict :=
  match node with
  | mkNode n t u r d p cs =>
      mkDict
        ([("name", AStr n); ("type", AStr t); ("url", AStr u);
          ("root_path", AStr r)]
           ++ match d with Some b => [("default_branch", AStr b)] | None => [] end
           ++ match p with Some l => [("protected_branches", AList l)] | None => [] end)
        match cs with
        | [] => None
        | _ => Some ((fix go (l : list Node) : list Dict :=
                        match l with
                        | [] => []
                        | c :: l' => export c :: go l'
                        end) cs)
        end
  end.

(** A required string attribute, an optional string attribute and an
    optional list attribute of a mapping. The outer [None] of the optional
    readers marks a value of another shape than the record of [Node] holds. *)
Definition get_str (key : string) (l : list (string * Attr)) : option string :=
  match get key l with Some (AStr s) => Some s | _ => None end.

Definition get_opt_str (key : string) (l : list (string * Attr))
  : option (option string) :=
  match get key l with
  | None => Some None
  | Some (AStr s) => Some (Some s)
  | Some (AList _) => None
  end.

Definition get_opt_list (key : string) (l : list (string * Attr))
  : option (option (list string)) :=
  match get key l with
  | None => Some None
  | Some (AList x) => Some (Some x)
  | Some (AStr _) => None
  end.

(** [anytree.importer.DictImporter().import_(data)]: the key [children] is
    popped (default: no children), every other key becomes an attribute of
    the node with the value the mapping holds, and the children are imported
    in order under the node. The library accepts any mapping; the result is
    [None] here for a mapping whose node does not fit the record of [Node]
    (one of [name], [type], [url], [root_path] absent or not a string). *)
Fixpoint import_ (data : Dict) : option Node :=
  match data with
  | mkDict attrs ch =>
      let imported :=
        match ch with
        | Some l =>
            (fix go (l : list Dict) : option (list Node) :=
               match l with
               | [] => Some []
               | c :: l' =>
                   match import_ c, go l' with
                   | Some n, Some ns => Some (n :: ns)
                   | _, _ => None
                   end
               end) l
        | None => Some []
        end in
      match get_str "name" attrs, get_str "type" attrs,
            get_str "url" attrs, get_str "root_path" attrs,
            get_opt_str "default_branch" attrs,
            get_opt_list "protected_branches" attrs,
            imported with
      | Some n, Some t, Some u, Some r, Some d, Some p, Some cs =>
          Some (mkNode n t u r d p cs)
      | _, _, _, _, _, _, _ => None
      end
  end.

(** The text layer: [yaml.safe_load], [yaml.dump] and [json.dumps] over some
    type of texts. [yaml_safe_load] is [None] when the loader raises or the
    document is not a mapping. *)
Class Codec (Text : Type) : Type := {
    yaml_safe_load : Text -> option Dict;
    yaml_dump : Dict -> Text;
    json_dumps : Dict -> Text
  }.

(** What lies outside the program when a tree is loaded. [open_file] is
    [None] when the file cannot be opened or read. *)
Record Sources (Text : Type) : Type :=
  mkSources {
      groups : Listing Group;
      user : UserAnswer;
      open_file : string -> option Text
    }.
Arguments groups {Text} s.
Arguments user {Text} s.
Arguments open_file {Text} s.
Arguments mkSources {Text} groups user open_file.

Section LoadAndPrint.
Context {M : Matchers} {Text : Type} {C : Codec Text}.

(** [GitlabTree.load_file_tree]: the root after the load; every exception
    is caught and leaves the root as it was. The outer [None] is the import
    of a mapping outside the model (see [import_]). *)
Definition load_file_tree (self : GitlabTree) (src : Sources Text)
           (file : string) : option Node :=
  match open_file src file with
  | Some stream =>
      match yaml_safe_load stream with
      | Some dct => import_ dct
      | None => Some (root self)
      end
  | None => Some (root self)
  end.

(** [self] with another root. *)
Definition with_root (self : GitlabTree) (r : Node) : GitlabTree :=
  mkGitlabTree (includes self) (excludes self) (self_url self) r
               (method self) (naming self) (in_file self) (token self)
               (concurrency self) (recursive self) (disable_progress self)
               (include_shared self) (use_fetch self) (hide_token self)
               (user_projects self) (git_options self)
               (track_protected_branches self).

(** [GitlabTree.load_tree]: the root after the load and the filter. *)
Definition load_tree (self : GitlabTree) (src : Sources Text) : option Node :=
  let loaded :=
    match in_file self with
    | Some file =>
        if PyStr.truthy file then load_file_tree self src file
        else if user_projects self then Some (load_user_tree self (user src))
             else Some (load_gitlab_tree self (groups src))
    | None =>
        if user_projects self then Some (load_user_tree self (user src))
        else Some (load_gitlab_tree self (groups src))
    end in
  match loaded with
  | Some r => Some (filter_tree self r)
  | None => None
  end.

(** [GitlabTree.print_tree_yaml]: the text printed. *)
Definition print_tree_yaml (self : GitlabTree) : Text :=
  yaml_dump (export (root self)).

(** [GitlabTree.print_tree_json]: the text printed. *)
Definition print_tree_json (self : GitlabTree) : Text :=
  json_dumps (export (root self)).

End LoadAndPrint.

(** ** [gitlabber/git.py] *)

Module Git.

(** *** Exceptions, log lines and git calls *)

(** The exceptions the file tells apart: [KeyboardInterrupt] and
    [SystemExit] derive from [BaseException] only, everything else that is
    raised derives from [Exception]. *)
Inductive Exn : Type :=
| KeyboardInterrupt
| SystemExit (code : Z)
| Exception (msg : string).

(** The lines written to [log], by level and content. *)
Inductive Log : Type :=
| debug_updating_existing_project (path : string)
| debug_skipping_clone (type : string)
| debug_cloning_new_project (path : string)
| fatal_user_interrupted
| error_pulling_project (path msg : string)
| error_cloning_project (path msg : string)
| error_add_worktree (branch msg : string)
| error_update_worktree (path msg : string).

(** The commands handed to the git layer and to [os]. A repository object
    is named by the path it was opened or cloned at. *)
Inductive Call : Type :=
| makedirs (path : string)
| origin_pull (repo : string)
| origin_fetch (repo : string)
| submodule_update (repo : string)
| clone_from (url path : string) (multi_options : list string)
| worktree_add (repo path branch : string)
| git_pull (path : string).

(** The world the commands act on. [perform] runs a command: it may raise,
    and it leaves another world. The other fields are the queries the file
    makes: [os.path.exists], whether [git.Repo(path)] is a valid repository,
    the names of [repo.references], [repo.working_tree_dir], and the
    comparison [branch == git.HEAD.name], which is made against an
    attribute of the library's class [HEAD] and has no repository in it. *)
Class Vcs (W : Type) : Type := {
    perform : Call -> W -> option Exn * W;
    os_path_exists : string -> W -> bool;
    valid_repo : string -> W -> bool;
    references : string -> W -> list string;
    working_tree_dir : string -> W -> string;
    eq_HEAD_name : string -> bool
  }.

(** *** State and exceptions *)

Record State (W : Type) : Type :=
  mkState { world : W; calls : list Call; log : list Log }.
Arguments mkState {W} world calls log.
Arguments world {W} s.
Arguments calls {W} s.
Arguments log {W} s.

Inductive Result (A : Type) : Type :=
| Val (a : A)
| Raise (e : Exn).
Arguments Val {A} a.
Arguments Raise {A} e.

Definition M (W A : Type) : Type := State W -> Result A * State W.

Definition ret {W A : Type} (a : A) : M W A := fun st => (Val a, st).

Definition bind {W A B : Type} (c : M W A) (k : A -> M W B) : M W B :=
  fun st =>
    match c st with
    | (Val a, st') => k a st'
    | (Raise e, st') => (Raise e, st')
    end.

Definition raise {W A : Type} (e : Exn) : M W A := fun st => (Raise e, st).

Declare Scope py_scope.
Delimit Scope py_scope with py.
Notation "x <- c ;; k" := (bind c (fun x => k))
  (at level 61, c at next level, right associativity) : py_scope.
Notation "c ;; k" := (bind c (fun _ => k))
  (at level 61, right associativity) : py_scope.
Local Open Scope py_scope.

(** [log.debug], [log.error], [log.fatal] *)
Definition log_ {W : Type} (l : Log) : M W unit :=
  fun st => (Val tt, mkState (world st) (calls st) (log st ++ [l])).

(** A query of the world. *)
Definition ask {W A : Type} (q : W -> A) : M W A :=
  fun st => (Val (q (world st)), st).

(** A command: it is recorded, the world moves, and the exception the world
    answers with, if any, is raised. *)
Definition call {W : Type} `{Vcs W} (c : Call) : M W unit :=
  fun st =>
    let (answer, w) := perform c (world st) in
    let st' := mkState w (calls st ++ [c]) (log st) in
    match answer with
    | None => (Val tt, st')
    | Some e => (Raise e, st')
    end.

(** [try: body / except Exception as e: handler(e)] *)
Definition try_except {W A : Type} (body : M W A) (handler : string -> M W A)
  : M W A :=
  fun st =>
    match body st with
    | (Raise (Exception msg), st') => handler msg st'
    | other => other
    end.

(** [try: body / except KeyboardInterrupt: on_interrupt /
     except Exception as e: on_exception(e) / else: else_]. An exception
    raised by a handler or by the [else] branch is not handled here. *)
Definition try_except_else {W A B : Type} (body : M W A)
           (on_interrupt : M W B) (on_exception : string -> M W B)
           (else_ : A -> M W B) : M W B :=
  fun st =>
    match body st with
    | (Val a, st') => else_ a st'
    | (Raise KeyboardInterrupt, st') => on_interrupt st'
    | (Raise (Exception msg), st') => on_exception msg st'
    | (Raise (SystemExit code), st') => (Raise (SystemExit code), st')
    end.

(** [sys.exit(code)] *)
Definition sys_exit {W A : Type} (code : Z) : M W A := raise (SystemExit code).

(** *** [class GitAction] *)
Record GitAction : Type :=
  mkGitAction {
      node : Node;
      path : string;
      recursive : bool;
      use_fetch : bool;
      hide_token : bool;
      git_options : option string
    }.

(** [GitAction(node, path, recursive, use_fetch, hide_token)]: the last
    parameter of [__init__] is left to its default. *)
Definition GitAction_5 (node : Node) (path : string)
           (recursive use_fetch hide_token : bool) : GitAction :=
  mkGitAction node path recursive use_fetch hide_token None.

Section WithWorld.
Context {M_ : Matchers} {W : Type} {V : Vcs W}.

(** [get_git_actions] *)
Fixpoint get_git_actions (root : Node) (dest : string)
         (recursive use_fetch hide_token : bool) : M W (list GitAction) :=
  match root with
  | mkNode _ _ _ _ _ _ cs =>
      (fix loop (l : list Node) (actions : list GitAction)
         : M W (list GitAction) :=
         match l with
         | [] => ret actions
         | child :: rest =>
             let path := (dest ++ root_path child)%string in
             present <- ask (os_path_exists path) ;;
             (if negb present then call (makedirs path) else ret tt) ;;
             let actions :=
               if is_leaf child
               then actions ++ [GitAction_5 child path recursive use_fetch hide_token]
               else actions in
             if negb (is_leaf child) then
               more <- get_git_actions child dest recursive use_fetch hide_token ;;
               loop rest (actions ++ more)
             else loop rest actions
         end) cs []
  end.

(** [is_git_repo] *)
Definition is_git_repo (path : string) : M W bool := ask (valid_repo path).

(** [list_branches_matching_patterns]. [repo] is the path of the
    repository. *)
Definition list_branches_matching_patterns (repo : string)
           (patterns : list string) : M W (list string) :=
  refs <- ask (references repo) ;;
  ret ((fix loop (l : list string) (expanded_branches : list string)
          : list string :=
          match l with
          | [] => expanded_branches
          | ref_name :: rest =>
              let prefix := "origin/" in
              if negb (PyStr.startswith ref_name prefix)
              then loop rest expanded_branches
              else
                let branch_name := PyStr.drop (String.length prefix) ref_name in
                if (fix any (ps : list string) : bool :=
                      match ps with
                      | [] => false
                      | pattern :: ps' =>
                          if fnmatch branch_name pattern then true else any ps'
                      end) patterns
                then loop rest (expanded_branches ++ [branch_name])
                else loop rest expanded_branches
          end) refs []).

(** [create_worktree] *)
Definition create_worktree (repo path branch : string) : M W unit :=
  try_except (call (worktree_add repo path branch))
             (fun e => log_ (error_add_worktree branch e)).

(** [update_worktree] *)
Definition update_worktree (path : string) : M W unit :=
  try_except (call (git_pull path))
             (fun e => log_ (error_update_worktree path e)).

(** [create_or_update_worktrees] *)
Fixpoint create_or_update_worktrees (repo : string) (branches : list string)
  : M W unit :=
  match branches with
  | [] => ret tt
  | branch :: rest =>
      if eq_HEAD_name branch then create_or_update_worktrees repo rest
      else
        dir <- ask (working_tree_dir repo) ;;
        let path :=
          PyStr.os_path_join
            dir [PyStr.pardir; PyStr.replace_char "/" "-" branch] in
        present <- ask (os_path_exists path) ;;
        (if present then update_worktree path
         else create_worktree repo path branch) ;;
        create_or_update_worktrees repo rest
  end.

(** [create_or_update_protected_branch_worktrees] *)
Definition create_or_update_protected_branch_worktrees
           (repo : string) (action : GitAction) : M W unit :=
  match protected_branches (node action) with
  | None | Some [] => ret tt
  | Some patterns =>
      branches <- list_branches_matching_patterns repo patterns ;;
      create_or_update_worktrees repo branches
  end.

(** The options of the clone, as [clone_or_pull_project] assembles them. *)
Definition multi_options_of (action : GitAction) : list string :=
  let multi_options := [] in
  let multi_options :=
    if recursive action then multi_options ++ ["--recursive"]
    else multi_options in
  let multi_options :=
    if use_fetch action then multi_options ++ ["--mirror"]
    else multi_options in
  match git_options action with
  | Some opts =>
      if PyStr.truthy opts then multi_options ++ PyStr.split "," opts
      else multi_options
  | None => multi_options
  end.

(** The body of the [try] of an update: [git.Repo(action.path)], the pull
    or the fetch of [origin], and the update of the submodules. *)
Definition update_step (action : GitAction) : M W string :=
  let repo := path action in
  (if negb (use_fetch action) then call (origin_pull repo)
   else call (origin_fetch repo)) ;;
  (if recursive action then call (submodule_update repo) else ret tt) ;;
  ret repo.

(** The body of the [try] of a clone: [git.Repo.clone_from]. *)
Definition clone_step (action : GitAction) : M W string :=
  call (clone_from (url (node action)) (path action)
                   (multi_options_of action)) ;;
  ret (path action).

(** [clone_or_pull_project]. The progress bar is left out. *)
Definition clone_or_pull_project (action : GitAction) : M W unit :=
  is_repo <- is_git_repo (path action) ;;
  if is_repo then
    log_ (debug_updating_existing_project (path action)) ;;
    try_except_else
      (update_step action)
      (log_ fatal_user_interrupted ;; sys_exit 0)
      (fun e => log_ (error_pulling_project (path action) e))
      (fun repo => create_or_update_protected_branch_worktrees repo action)
  else
    if negb (String.eqb (type_ (node action)) "project") then
      log_ (debug_skipping_clone (type_ (node action)))
    else
      log_ (debug_cloning_new_project (path action)) ;;
      try_except_else
        (clone_step action)
        (log_ fatal_user_interrupted ;; sys_exit 0)
        (fun e => log_ (error_cloning_project (path action) e))
        (fun repo => create_or_update_protected_branch_worktrees repo action).

(** The dispatch of [ThreadPoolExecutor(max_workers).map(f, actions)]
    followed by the wait at the end of the [with] block. How a pool
    schedules its workers is not part of this file. *)
Class Pool : Type := {
    executor_map :
      nat -> (GitAction -> M W unit) -> list GitAction -> M W unit
  }.

(** [sync_tree]. The progress bar is left out. *)
Definition sync_tree {P : Pool} (root : Node) (dest : string)
           (concurrency : nat) (disable_progress : bool)
           (recursive use_fetch hide_token : bool)
           (git_options : option string) : M W unit :=
  actions <- get_git_actions root dest recursive use_fetch hide_token ;;
  executor_map concurrency clone_or_pull_project actions.

End WithWorld.

End Git.

(** ** [GitlabTree.sync_tree] *)

(** [GitlabTree.sync_tree]: the call of [sync_tree] of [git.py] names
    [concurrency], [disable_progress], [recursive], [use_fetch] and
    [hide_token]; its parameter [git_options] keeps its default. An exception
    is raised again as [GitlabTreeError]. *)
Definition sync_tree {M_ : Matchers} {W : Type} {V : Git.Vcs W} {P : Git.Pool}
           (self : GitlabTree) (dest : string) : Git.M W unit :=
  Git.try_except
    (Git.sync_tree (root self) dest (concurrency self) (disable_progress self)
                   (recursive self) (use_fetch self) (hide_token self) None)
    (fun e => Git.raise (Git.Exception ("Failed to sync tree: " ++ e))).

(** ** The filter in the words of its description *)

Section FilterDescription.
Context {M : Matchers}.

(** The keep rule: included, and not excluded. *)
Definition keep_rule (self : GitlabTree) (node : Node) : Prop :=
  (includes self = [] \/
   exists p, In p (includes self) /\ globre_match p (root_path node) = true)
  /\ ~ (exists e, In e (excludes self) /\
                  globre_match e (root_path node) = true).

(** The test the filter makes on a leaf, as a truth value. *)
Definition passes (self : GitlabTree) (node : Node) : bool :=
  is_included self node && negb (is_excluded self node).

(** A child as it stands when the loop of [filter_tree] reaches its test:
    untouched when it was a leaf, filtered below when it was not. *)
Definition as_judged (self : GitlabTree) (child : Node) : Node :=
  if is_leaf child then child else filter_tree self child.

(** What the loop of [filter_tree] leaves of one child: the child as
    judged, or nothing when it is a leaf that fails the test. *)
Definition verdict (self : GitlabTree) (child : Node) : list Node :=
  let child' := as_judged self child in
  if is_leaf child' then (if passes self child' then [child'] else [])
  else [child'].

(** Post-order pruning: first every child that has children is pruned
    below; then, among the children as they now stand, the leaves are put
    to the keep rule and those that fail it are dropped. *)
Fixpoint post_order_prune (self : GitlabTree) (parent : Node) : Node :=
  match parent with
  | mkNode n t u r d p cs =>
      let below :=
        (fix go (l : list Node) : list Node :=
           match l with
           | [] => []
           | c :: l' =>
               (if is_leaf c then c else post_order_prune self c) :: go l'
           end) cs in
      mkNode n t u r d p
             (filter (fun c => negb (is_leaf c) || passes self c) below)
  end.

End FilterDescription.

(** Containment: [within n m] when [m] is [n] or lies below [n]. *)
Inductive within : Node -> Node -> Prop :=
| within_here : forall n, within n n
| within_child : forall n c m, In c (children n) -> within c m -> within n m.

(** ** Instances used to run the definitions on concrete inputs *)

(** Matchers for patterns without wildcard characters, where a pattern
    matches exactly the string it spells. *)
Definition literal_matchers : Matchers :=
  {| globre_match := fun pattern s => String.eqb pattern s;
     fnmatch := fun name pattern => String.eqb name pattern |}.

(** A small world: the directories and repositories that exist, the
    reference names every repository shows, the branch each repository has
    checked out, and the commands that raise. A clone makes its directory and
    its repository, [makedirs] and [git worktree add] make their directory. *)
Module Sim.

Record World : Type :=
  mkWorld {
      dirs : list string;
      repos : list string;
      refs : list string;
      active_branch : string;
      raising : Git.Call -> option Git.Exn
    }.

Definition has (l : list string) (s : string) : bool :=
  existsb (String.eqb s) l.

Definition effect (c : Git.Call) (w : World) : World :=
  match c with
  | Git.makedirs p =>
      mkWorld (dirs w ++ [p]) (repos w) (refs w) (active_branch w) (raising w)
  | Git.clone_from _ p _ =>
      mkWorld (dirs w ++ [p]) (repos w ++ [p]) (refs w) (active_branch w)
              (raising w)
  | Git.worktree_add _ p _ =>
      mkWorld (dirs w ++ [p]) (repos w ++ [p]) (refs w) (active_branch w)
              (raising w)
  | _ => w
  end.

(** The comparison [branch == git.HEAD.name] reads [name] on the class
    [HEAD], where it is a property object, equal to no string: the
    comparison holds for no branch name. *)
Definition vcs : Git.Vcs World :=
  {| Git.perform := fun c w =>
       match raising w c with
       | Some e => (Some e, w)
       | None => (None, effect c w)
       end;
     Git.os_path_exists := fun p w => has (dirs w) p;
     Git.valid_repo := fun p w => has (repos w) p;
     Git.references := fun _ w => refs w;
     Git.working_tree_dir := fun repo _ => repo;
     Git.eq_HEAD_name := fun _ => false |}.

(** The dispatch of a pool with one worker: the actions one after the
    other, in list order. What an action returns or raises, [SystemExit]
    included, is kept in the future of that action; [executor.map] hands the
    futures back in an iterator that [sync_tree] never reads, so the next
    action runs and the dispatch itself returns. *)
Fixpoint run_in_order {W : Type} (f : Git.GitAction -> Git.M W unit)
         (actions : list Git.GitAction) : Git.M W unit :=
  match actions with
  | [] => Git.ret tt
  | a :: rest => fun st => run_in_order f rest (snd (f a st))
  end.

Definition in_order {W : Type} : @Git.Pool W :=
  {| Git.executor_map := fun _ f actions => run_in_order f actions |}.

(** Texts that are the mappings themselves. *)
Definition plain_codec : Codec Dict :=
  {| yaml_safe_load := fun d => Some d;
     yaml_dump := fun d => d;
     json_dumps := fun d => d |}.

Definition nothing_raises : Git.Call -> option Git.Exn := fun _ => None.

(** A world without state in which every path exists and is a repository,
    and every command fails with an error. *)
Definition failing : Git.Vcs unit :=
  {| Git.perform := fun _ w => (Some (Git.Exception "fatal: unable to access"), w);
     Git.os_path_exists := fun _ _ => true;
     Git.valid_repo := fun _ _ => true;
     Git.references := fun _ _ => ["origin/main"];
     Git.working_tree_dir := fun repo _ => repo;
     Git.eq_HEAD_name := fun _ => false |}.

Definition start (w : World) : Git.State World := Git.mkState w [] [].

End Sim.

(** ** Concrete inputs *)

Module Ex.

Definition host : string := "https://gitlab.example".

Definition p1 : Project :=
  mkProject "P1" "p1" "git@gitlab.example:g/s/p1.git"
            "https://gitlab.example/g/s/p1.git" (Some "main")
            (ProtectedNames ["main"]).

Definition p2 : Project :=
  mkProject "P2" "p2" "git@gitlab.example:g/p2.git"
            "https://gitlab.example/g/p2.git" (Some "main")
            (ProtectedNames []).

Definition s : Group :=
  mkGroup "S" "s" "https://gitlab.example/g/s" (Some 1%Z)
          (Listed []) (Listed [p1]) None.

Definition g : Group :=
  mkGroup "G" "g" "https://gitlab.example/g" None
          (Listed [Got s]) (Listed [p2]) None.

(** The listing of all groups shows the subgroup as well. *)
Definition remote : Listing Group := Listed [g; s].

(** [GitlabTree(url, token, method, naming, includes, excludes, ...)] with
    the root made by [__init__]. *)
Definition tree_of (naming : option FolderNaming) (includes excludes : list string)
           (git_options : option string) (protected : bool) : GitlabTree :=
  mkGitlabTree includes excludes host (initial_root host) SSH naming None None
               1 false false true false false false git_options protected.

(** Root, group [g], subgroup [s] with project [p1], and project [p2]. *)
Definition built : Node :=
  load_gitlab_tree (tree_of (Some PATH) [] [] None false) remote.

(** The same remote under branch naming. *)
Definition built_by_branch : Node :=
  load_gitlab_tree (tree_of (Some BRANCH) [] [] None false) remote.

(** The same remote with the protected branches read. *)
Definition built_protected : Node :=
  load_gitlab_tree (tree_of (Some PATH) [] [] None true) remote.

(** The node of group [g] in [built], and the node of project [p2]. *)
Definition g_node : Node := hd built (children built).
Definition p2_node : Node := nth 1 (children g_node) built.

(** Under branch naming: the node of subgroup [s] and of project [p1]. *)
Definition s_node_by_branch : Node :=
  hd built (children (hd built (children built_by_branch))).
Definition p1_node_by_branch : Node := hd built (children s_node_by_branch).

End Ex.

(** ** The path rule of the builder *)

(** What [root_path_of] puts after the names: the default branch, when there
    is one and it is not empty. *)
Definition branch_suffix (default_branch : option string) : string :=
  match default_branch with
  | Some b => if PyStr.truthy b then "/" ++ b else ""
  | None => ""
  end.

(** The rule between a node and its parent. *)
Definition path_rule (parent child : Node) : Prop :=
  root_path child =
  (root_path parent ++ "/" ++ name child
     ++ branch_suffix (default_branch child))%string.

(** The rule along the whole chain, for a node whose ancestors from the root
    down to its parent are named [ancestors], and for everything below it:
    the [root_path] is what [root_path_of] gives for the chain; a node that
    has children has no default branch; a node has a default branch only
    under a branch naming ([by_branch]). *)
Fixpoint chain_ok (by_branch : bool) (ancestors : list string) (n : Node) : Prop :=
  match n with
  | mkNode nm _ _ r d _ cs =>
      r = root_path_of (ancestors ++ [nm]) d
      /\ (cs <> [] -> d = None)
      /\ (d <> None -> by_branch = true)
      /\ (fix all (l : list Node) : Prop :=
            match l with
            | [] => True
            | c :: l' => chain_ok by_branch (ancestors ++ [nm]) c /\ all l'
            end) cs
  end.

(** Whether [self] names folders by branch. *)
Definition names_by_branch (self : GitlabTree) : bool :=
  match naming self with Some BRANCH => true | _ => false end.

(** The subgroups a group's listing gives access to. *)
Fixpoint fetched {A : Type} (l : list (Fetched A)) : list A :=
  match l with
  | [] => []
  | Got a :: l' => a :: fetched l'
  | _ :: l' => fetched l'
  end.

Definition subgroups_of (g : Group) : list Group :=
  match g with
  | mkGroup _ _ _ _ (Listed defs) _ _ => fetched defs
  | _ => []
  end.

(** Structural induction over the answers nested in a group. *)
Section GroupInduction.
Variable P : Group -> Prop.
Hypothesis step : forall g, Forall P (subgroups_of g) -> P g.

Fixpoint Group_ind_nested (g : Group) : P g :=
  step g
    (match g as g0 return Forall P (subgroups_of g0) with
     | mkGroup _ _ _ _ subgroups _ _ =>
         match subgroups as s0
               return Forall P (match s0 with
                                | Listed defs => fetched defs
                                | _ => []
                                end)
         with
         | Listed items =>
             (fix go (l : list (Fetched Group)) : Forall P (fetched l) :=
                match l as l0 return Forall P (fetched l0) with
                | [] => Forall_nil P
                | f :: l' =>
                    match f as f0 return Forall P (fetched (f0 :: l')) with
                    | Got sg => Forall_cons sg (Group_ind_nested sg) (go l')
                    | RaisesGitlabGetError _ => go l'
                    | RaisesOtherOnGet => go l'
                    end
                end) items
         | RaisesGitlabListError _ => Forall_nil P
         | RaisesOther => Forall_nil P
         end
     end).
End GroupInduction.

(** ** Mappings up to what a text layer may change *)

(** Two mappings that answer every key alike and whose children are, in
    order, alike in the same sense: what a dump that sorts or reorders the
    keys of a mapping keeps. *)
Fixpoint same_mapping (d d' : Dict) : Prop :=
  match d with
  | mkDict i ch =>
      (forall k, get k i = get k (items d'))
      /\ match ch, children_item d' with
         | None, None => True
         | Some l, Some l' =>
             (fix all (l : list Dict) (l' : list Dict) : Prop :=
                match l, l' with
                | [], [] => True
                | c :: r, c' :: r' => same_mapping c c' /\ all r r'
                | _, _ => False
                end) l l'
         | _, _ => False
         end
  end.

(** The mapping without the key [root_path], at every level. *)
Fixpoint without_root_paths (d : Dict) : Dict :=
  match d with
  | mkDict i ch =>
      mkDict (filter (fun kv => negb (String.eqb (fst kv) "root_path")) i)
             match ch with
             | Some l =>
                 Some ((fix go (l : list Dict) : list Dict :=
                          match l with
                          | [] => []
                          | c :: l' => without_root_paths c :: go l'
                          end) l)
             | None => None
             end
  end.

(** The reading of C4 in which the import recomputes the root paths: a
    stored mapping that differs from the export of [tree] in stored
    [root_path] strings only still imports as [tree]. *)
Definition root_paths_recomputed (tree : Node) : Prop :=
  forall stored n,
    without_root_paths stored = without_root_paths (export tree) ->
    import_ stored = Some n ->
    n = tree.

(** The children a mapping lists, none when the key is absent. *)
Definition listed_children (d : Dict) : list Dict :=
  match children_item d with Some l => l | None => [] end.

(** Structural induction over the nested children of a mapping. *)
Section DictInduction.
Variable P : Dict -> Prop.
Hypothesis step : forall d, Forall P (listed_children d) -> P d.

Fixpoint Dict_ind_nested (d : Dict) : P d :=
  step d
    (match d as d0 return Forall P (listed_children d0) with
     | mkDict _ ch =>
         match ch as c0
               return Forall P (match c0 with Some l => l | None => [] end)
         with
         | Some l0 =>
             (fix go (l : list Dict) : Forall P l :=
                match l with
                | [] => Forall_nil P
                | c :: l' => Forall_cons c (Dict_ind_nested c) (go l')
                end) l0
         | None => Forall_nil P
         end
     end).
End DictInduction.

(** The list of the values when every element is [Some], [None] otherwise. *)
Fixpoint all_some {A : Type} (l : list (option A)) : option (list A) :=
  match l with
  | [] => Some []
  | Some a :: l' =>
      match all_some l' with Some r => Some (a :: r) | None => None end
  | None :: _ => None
  end.

(** The attribute items [export] writes for a node. *)
Definition exported_items (n : Node) : list (string * Attr) :=
  [("name", AStr (name n)); ("type", AStr (type_ n)); ("url", AStr (url n));
   ("root_path", AStr (root_path n))]
    ++ match default_branch n with
       | Some b => [("default_branch", AStr b)]
       | None => []
       end
    ++ match protected_branches n with
       | Some l => [("protected_branches", AList l)]
       | None => []
       end.

(** The export of [Ex.built] with the stored [root_path] of its first child,
    group [g], edited to [elsewhere]. *)
Definition edited_export : Dict :=
  match export Ex.built with
  | mkDict i (Some (mkDict gi gch :: rest)) =>
      mkDict i
        (Some (mkDict
                 (map (fun kv : string * Attr =>
                         if String.eqb (fst kv) "root_path"
                         then (fst kv, AStr "elsewhere") else kv) gi)
                 gch :: rest))
  | d => d
  end.

(** A tree object holding [Ex.built], and sources whose every file holds the
    mapping printed for it. *)
Definition holding_built : GitlabTree :=
  with_root (Ex.tree_of (Some PATH) [] [] None false) Ex.built.

Definition printed_file : Sources Dict :=
  mkSources (Listed []) None (fun _ => Some (export Ex.built)).

(** ** The reconciliation of worktrees in the words of its description *)

Section ReconcileDescription.
Context {M_ : Matchers} {W : Type} {V : Git.Vcs W}.
Local Notation "x <- c ;; k" := (Git.bind c (fun x => k))
  (at level 61, c at next level, right associativity).
Local Notation "c ;; k" := (Git.bind c (fun _ => k))
  (at level 61, right associativity).

(** The names of the remote-tracking references, without the prefix
    [origin/], that match at least one pattern. *)
Definition matched_branches (refs patterns : list string) : list string :=
  filter (fun b => existsb (fun pattern => fnmatch b pattern) patterns)
         (map (PyStr.drop 7)
              (filter (fun r => PyStr.startswith r "origin/") refs)).

(** The directory next to the working tree, named after the branch with
    every slash turned into a dash. *)
Definition sibling_path (dir branch : string) : string :=
  PyStr.os_path_join dir [".."; PyStr.replace_char "/" "-" branch].

(** One branch: pull where the sibling path exists, add a worktree checked
    out to the branch where it does not. *)
Definition reconcile_branch (repo branch : string) : Git.M W unit :=
  dir <- Git.ask (Git.working_tree_dir repo) ;;
  present <- Git.ask (Git.os_path_exists (sibling_path dir branch)) ;;
  if present then Git.update_worktree (sibling_path dir branch)
  else Git.create_worktree repo (sibling_path dir branch) branch.

Fixpoint for_each {A : Type} (f : A -> Git.M W unit) (l : list A)
  : Git.M W unit :=
  match l with
  | [] => Git.ret tt
  | a :: rest => f a ;; for_each f rest
  end.

(** The reconciliation over the matched branches but those [skip] names. *)
Definition reconcile_skipping (skip : string -> bool) (repo : string)
           (patterns : list string) : Git.M W unit :=
  refs <- Git.ask (Git.references repo) ;;
  for_each (reconcile_branch repo)
           (filter (fun b => negb (skip b)) (matched_branches refs patterns)).

End ReconcileDescription.


(** ** Concrete actions and worlds *)

Module Run.

(** The tree of [Ex.built] with the protected branches read, held by a tree
    object whose user asked for the git option [--depth=1]. *)
Definition with_options : GitlabTree :=
  with_root (Ex.tree_of (Some PATH) [] [] (Some "--depth=1") true)
            Ex.built_protected.

(** Nothing exists yet and nothing raises; the repositories show the
    references of a fresh clone and have [main] checked out. *)
Definition fresh : Sim.World :=
  Sim.mkWorld [] [] ["origin/HEAD"; "origin/main"; "origin/dev"] "main"
              Sim.nothing_raises.

(** The action for project [p1], whose protected branch is [main]. *)
Definition p1_action : Git.GitAction :=
  Git.GitAction_5
    (hd Ex.built
        (children (hd Ex.built (children (hd Ex.built (children Ex.built_protected))))))
    "/dest/g/s/p1" false false false.

(** [p1] was cloned earlier. *)
Definition cloned : Sim.World :=
  Sim.mkWorld ["/dest/g/s/p1"] ["/dest/g/s/p1"]
              ["origin/HEAD"; "origin/main"; "origin/dev"] "main"
              Sim.nothing_raises.


(** [p1] was cloned earlier, the pull succeeds, and the interrupt comes
    while the worktree is added. *)
Definition interrupted_late : Sim.World :=
  Sim.mkWorld ["/dest/g/s/p1"] ["/dest/g/s/p1"]
              ["origin/HEAD"; "origin/main"; "origin/dev"] "main"
              (fun c => match c with
                        | Git.worktree_add _ _ _ => Some Git.KeyboardInterrupt
                        | _ => None
                        end).

(** A group without subgroups and projects, and the action for it. *)
Definition empty_group : Node :=
  make_node "group" "empty" [""] "https://gitlab.example/empty" None None.

Definition empty_group_action : Git.GitAction :=
  Git.GitAction_5 empty_group "/dest/empty" true true false.

Definition dest_made : Sim.World :=
  Sim.mkWorld ["/dest/empty"] [] [] "main" Sim.nothing_raises.

End Run.

(** C5 read with the branch the repository has checked out as the one that
    is skipped, in the small world. *)
Definition reconcile_as_stated (w : Sim.World) (repo : string)
           (action : Git.GitAction) (patterns : list string) : Prop :=
  @Git.create_or_update_protected_branch_worktrees
    literal_matchers Sim.World Sim.vcs repo action (Sim.start w)
  = @reconcile_skipping literal_matchers Sim.World Sim.vcs
      (String.eqb (Sim.active_branch w)) repo patterns (Sim.start w).


(** The state with one more line in the log. *)
Definition logged {W : Type} (st : Git.State W) (l : Git.Log) : Git.State W :=
  Git.mkState (Git.world st) (Git.calls st) (Git.log st ++ [l]).

(** A world whose commands raise nothing but errors: neither an interrupt
    nor an exit. *)
Definition raises_errors_only {W : Type} {V : Git.Vcs W} : Prop :=
  forall c w e, fst (Git.perform c w) = Some e -> exists msg, e = Git.Exception msg.

(** ** [GitlabTree.is_empty] *)

(** [node.height]: the number of edges on the longest path down to a leaf. *)
Fixpoint height (n : Node) : nat :=
  match n with
  | mkNode _ _ _ _ _ _ cs =>
      match cs with
      | [] => 0
      | _ => S ((fix deepest (l : list Node) : nat :=
                   match l with
                   | [] => 0
                   | c :: l' => Nat.max (height c) (deepest l')
                   end) cs)
      end
  end.

(** [GitlabTree.is_empty] *)
Definition is_empty (self : GitlabTree) : bool := Nat.ltb (height (root self)) 1.

(** ** Listings of a tree *)

(** What a node shows of itself. *)
Definition label (n : Node) : string * string * string * string :=
  (name n, type_ n, url n, root_path n).

(** The labels of a tree, every node before its children, the children in
    order. *)
Fixpoint preorder (n : Node) : list (string * string * string * string) :=
  match n with
  | mkNode nm t u r _ _ cs =>
      (nm, t, u, r)
        :: (fix go (l : list Node) : list (string * string * string * string) :=
              match l with
              | [] => []
              | c :: l' => preorder c ++ go l'
              end) cs
  end.

(** [root.leaves] for a root that has children: the leaves below a node, in
    order. *)
Fixpoint leaves_below (n : Node) : list Node :=
  match n with
  | mkNode _ _ _ _ _ _ cs =>
      (fix go (l : list Node) : list Node :=
         match l with
         | [] => []
         | c :: l' => (if is_leaf c then [c] else leaves_below c) ++ go l'
         end) cs
  end.

(** [l] is [l'] with some elements left out, the others in the same order. *)
Inductive sublist {A : Type} : list A -> list A -> Prop :=
| sublist_nil : sublist [] []
| sublist_skip : forall x l l', sublist l l' -> sublist l (x :: l')
| sublist_keep : forall x l l', sublist l l' -> sublist (x :: l) (x :: l').

(** Whether [f] holds of every node below [n], at any depth. *)
Fixpoint all_below (f : Node -> bool) (n : Node) : bool :=
  match n with
  | mkNode _ _ _ _ _ _ cs =>
      (fix go (l : list Node) : bool :=
         match l with
         | [] => true
         | c :: l' => f c && all_below f c && go l'
         end) cs
  end.

(** ** What the builder promises about the nodes it makes *)

(** The folder name of a group or subgroup:
    [group.name if self.naming == FolderNaming.NAME else group.path]. *)
Definition folder_of_group (self : GitlabTree) (g : Group) : string :=
  match naming self with
  | Some NAME => group_name g
  | _ => group_path g
  end.

(** A node below the top-level groups as the builder makes it: a project
    without children, or a subgroup without default branch and protected
    branches; protected branches, where present, are a non-empty list and
    present only when [self] tracks them ([track]). *)
Definition made_below (track : bool) (n : Node) : bool :=
  (if String.eqb (type_ n) "project" then is_leaf n
   else String.eqb (type_ n) "subgroup"
        && match default_branch n with None => true | Some _ => false end
        && match protected_branches n with None => true | Some _ => false end)
  && match protected_branches n with
     | None => true
     | Some [] => false
     | Some (_ :: _) => track
     end.

(** A remote in which nothing raises but [GitlabListError] and
    [GitlabGetError], at any depth below the group. *)
Fixpoint only_gitlab_errors (g : Group) : bool :=
  match g with
  | mkGroup _ _ _ _ subgroups projects shared =>
      match subgroups with
      | Listed defs =>
          (fix go (l : list (Fetched Group)) : bool :=
             match l with
             | [] => true
             | Got sg :: l' => only_gitlab_errors sg && go l'
             | RaisesGitlabGetError _ :: l' => go l'
             | RaisesOtherOnGet :: _ => false
             end) defs
      | RaisesGitlabListError _ => true
      | RaisesOther => false
      end
      && match projects with RaisesOther => false | _ => true end
      && match shared with Some RaisesOther => false | _ => true end
  end.

(** ** What the derivation of the actions does *)

(** The actions [get_git_actions] makes for a list of nodes. *)
Definition actions_for (dest : string) (recursive use_fetch hide_token : bool)
           (nodes : list Node) : list Git.GitAction :=
  map (fun n => Git.GitAction_5 n (dest ++ root_path n) recursive use_fetch
                                hide_token) nodes.

(** [st'] is [st] after some calls of [os.makedirs] and nothing else: the
    log is as it was. *)
Definition after_makedirs {W : Type} (st st' : Git.State W) : Prop :=
  (exists new, Git.calls st' = Git.calls st ++ new
               /\ Forall (fun c => exists p, c = Git.makedirs p) new)
  /\ Git.log st' = Git.log st.

(** A world in which [os.makedirs] never raises. *)
Definition makedirs_succeeds {W : Type} {V : Git.Vcs W} : Prop :=
  forall p w, fst (Git.perform (Git.makedirs p) w) = None.

(** ** What an action asks of git *)

(** The calls of the worktree reconciliation. *)
Definition is_worktree_call (c : Git.Call) : bool :=
  match c with
  | Git.worktree_add _ _ _ | Git.git_pull _ => true
  | _ => false
  end.

(** [st'] is [st] after some calls that all satisfy [P]. *)
Definition adds {W : Type} (P : Git.Call -> Prop) (st st' : Git.State W) : Prop :=
  exists new, Git.calls st' = Git.calls st ++ new /\ Forall P new.

(** A tree object that loads the file [tree.yaml] with the include pattern
    [/g/s/p1]; [Ex.built] as another object filters it with that pattern;
    and sources whose every file holds the mapping printed for the latter. *)
Definition loading_p1 : GitlabTree :=
  mkGitlabTree ["/g/s/p1"] [] Ex.host (initial_root Ex.host) SSH None
               (Some "tree.yaml") None 1 false false true false false false
               None false.

Definition filtered_p1 : Node :=
  @filter_tree literal_matchers (Ex.tree_of None ["/g/s/p1"] [] None false)
               Ex.built.

Definition printed_p1 : Sources Dict :=
  mkSources (Listed []) None (fun _ => Some (export filtered_p1)).

(** ** The calls of the reconciliation, one by one *)

Section WorktreeCalls.
Context {W : Type} {V : Git.Vcs W}.

(** The one call made for a branch in a world: a pull at the path next to
    the working tree when that path exists, a worktree added there for the
    branch when it does not. *)
Definition worktree_call (repo branch : string) (w : W) : Git.Call :=
  let path :=
    PyStr.os_path_join (Git.working_tree_dir repo w)
                       [".."; PyStr.replace_char "/" "-" branch] in
  if Git.os_path_exists path w then Git.git_pull path
  else Git.worktree_add repo path branch.

(** The calls made for a list of branches, each in the world the calls
    before it have left; an error of a call is caught and the next branch
    follows, any other exception ends the list. *)
Fixpoint worktree_calls (repo : string) (branches : list string) (w : W)
  : list Git.Call :=
  match branches with
  | [] => []
  | b :: rest =>
      let c := worktree_call repo b w in
      c :: match Git.perform c w with
           | (None, w') => worktree_calls repo rest w'
           | (Some (Git.Exception _), w') => worktree_calls repo rest w'
           | (Some _, _) => []
           end
  end.

End WorktreeCalls.

(* ================================================================== *)
(** * Part II: properties *)
(* ================================================================== *)

(** ** The filter *)

Section FilterProperties.
Context {M : Matchers}.
Variable self : GitlabTree.

Lemma filter_tree_leaf (n : Node) :
  is_leaf n = true -> filter_tree self n = n.
Proof.
  destruct n as [n t u r d p cs]; unfold is_leaf; simpl.
  destruct cs; [reflexivity | discriminate].
Qed.

Lemma filter_tree_attributes (n : Node) :
  filter_tree self n = with_children n (children (filter_tree self n)).
Proof. destruct n; reflexivity. Qed.

Lemma detach_test (n : Node) :
  negb (is_included self n) || is_excluded self n = negb (passes self n).
Proof.
  unfold passes.
  destruct (is_included self n), (is_excluded self n); reflexivity.
Qed.

Lemma filter_tree_children (parent : Node) :
  children (filter_tree self parent) = flat_map (verdict self) (children parent).
Proof.
  destruct parent as [n t u r d p cs]; simpl.
  induction cs as [|c cs IH]; [reflexivity|].
  simpl; rewrite <- IH; clear IH.
  unfold verdict, as_judged.
  destruct (is_leaf c) eqn:Hleaf; simpl.
  - rewrite Hleaf, detach_test.
    destruct (passes self c); reflexivity.
  - destruct (is_leaf (filter_tree self c)) eqn:Hleaf'.
    + rewrite detach_test.
      destruct (passes self (filter_tree self c)); reflexivity.
    + reflexivity.
Qed.

(** The two loops over the patterns stop at the first match. *)
Lemma first_match (s : string) (pats : list string) :
  (fix loop (l : list string) : bool :=
     match l with
     | [] => false
     | q :: rest => if globre_match q s then true else loop rest
     end) pats = existsb (fun q => globre_match q s) pats.
Proof.
  induction pats as [|q pats IH]; [reflexivity|].
  simpl; rewrite <- IH. destruct (globre_match q s); reflexivity.
Qed.

Lemma is_included_existsb (n : Node) :
  is_included self n =
  match includes self with
  | [] => true
  | _ => existsb (fun q => globre_match q (root_path n)) (includes self)
  end.
Proof.
  unfold is_included. destruct (includes self) as [|i l]; [reflexivity|].
  exact (first_match (root_path n) (i :: l)).
Qed.

Lemma is_excluded_existsb (n : Node) :
  is_excluded self n =
  existsb (fun q => globre_match q (root_path n)) (excludes self).
Proof.
  unfold is_excluded. destruct (excludes self) as [|e l]; [reflexivity|].
  exact (first_match (root_path n) (e :: l)).
Qed.

Lemma passes_keep_rule (n : Node) :
  passes self n = true <-> keep_rule self n.
Proof.
  unfold passes, keep_rule.
  rewrite andb_true_iff, negb_true_iff, is_included_existsb,
    is_excluded_existsb.
  split; intros [Hi He]; split.
  - destruct (includes self) as [|i l] eqn:E; [now left | right].
    apply existsb_exists in Hi. exact Hi.
  - intros [e [Hin Hm]].
    assert (existsb (fun q => globre_match q (root_path n)) (excludes self)
            = true) as Ht by (apply existsb_exists; eauto).
    congruence.
  - destruct Hi as [-> | Hex]; [reflexivity|].
    destruct (includes self) as [|i l] eqn:E; [reflexivity|].
    apply existsb_exists. exact Hex.
  - destruct (existsb _ (excludes self)) eqn:Hx; [|reflexivity].
    exfalso; apply He. apply existsb_exists in Hx. exact Hx.
Qed.

Lemma in_verdict (child x : Node) :
  In x (verdict self child) <->
  x = as_judged self child /\ (is_leaf x = true -> passes self x = true).
Proof.
  unfold verdict.
  destruct (is_leaf (as_judged self child)) eqn:Hl.
  - destruct (passes self (as_judged self child)) eqn:Hp; simpl.
    + split.
      * intros [<- | []]. split; [reflexivity | intros _; exact Hp].
      * intros [-> _]; now left.
    + split; [contradiction|].
      intros [-> H]. specialize (H Hl). congruence.
  - simpl; split.
    + intros [<- | []]. split; [reflexivity | congruence].
    + intros [-> _]; now left.
Qed.

Lemma as_judged_fixed (c : Node) :
  filter_tree self (filter_tree self c) = filter_tree self c ->
  verdict self (as_judged self c) =
  [as_judged self c] \/ verdict self c = [].
Proof.
  intro IH.
  assert (as_judged self (as_judged self c) = as_judged self c) as E.
  { unfold as_judged at 1.
    destruct (is_leaf (as_judged self c)) eqn:Hl; [reflexivity|].
    unfold as_judged in *.
    destruct (is_leaf c) eqn:Hc; [congruence | exact IH]. }
  unfold verdict. rewrite E. cbv zeta.
  destruct (is_leaf (as_judged self c)); [|now left].
  destruct (passes self (as_judged self c)); [now left | now right].
Qed.

Lemma verdict_cases (c : Node) :
  verdict self c = [] \/ verdict self c = [as_judged self c].
Proof.
  unfold verdict.
  destruct (is_leaf (as_judged self c)); [|now right].
  destruct (passes self (as_judged self c)); [now right | now left].
Qed.

Lemma verdict_stable (cs : list Node) :
  Forall (fun c => filter_tree self (filter_tree self c) = filter_tree self c) cs ->
  flat_map (verdict self) (flat_map (verdict self) cs) =
  flat_map (verdict self) cs.
Proof.
  induction 1 as [|c cs Hc _ IH]; [reflexivity|].
  simpl. rewrite flat_map_app, IH. f_equal.
  destruct (verdict_cases c) as [E | E]; rewrite E; [reflexivity|].
  simpl. rewrite app_nil_r.
  destruct (as_judged_fixed c Hc) as [E' | E']; congruence.
Qed.

Lemma prune_below (cs : list Node) :
  Forall (fun c => filter_tree self c = post_order_prune self c) cs ->
  flat_map (verdict self) cs =
  filter (fun c => negb (is_leaf c) || passes self c)
         ((fix go (l : list Node) : list Node :=
             match l with
             | [] => []
             | c :: l' =>
                 (if is_leaf c then c else post_order_prune self c) :: go l'
             end) cs).
Proof.
  induction 1 as [|c cs Hc _ IH]; [reflexivity|].
  simpl. rewrite <- IH. unfold verdict at 1. unfold as_judged.
  rewrite <- Hc.
  destruct (is_leaf (if is_leaf c then c else filter_tree self c)); simpl.
  - destruct (passes self _); reflexivity.
  - reflexivity.
Qed.

End FilterProperties.

(** C1. A child that is a leaf when the filter judges it (it had no children,
    or the filter emptied it) stays under its parent exactly when the include
    patterns are empty or one of them matches its [root_path], and no exclude
    pattern matches its [root_path]; otherwise it is detached. The node the
    filter is called on, the root, is returned with all its attributes
    whatever the patterns say about it. *)
Theorem C1_keep_rule_decides {M : Matchers} (self : GitlabTree)
        (parent child : Node)
        (Hchild : In child (children parent))
        (Hleaf : is_leaf (as_judged self child) = true) :
  (In (as_judged self child) (children (filter_tree self parent)) <->
   keep_rule self (as_judged self child))
  /\ filter_tree self parent =
     with_children parent (children (filter_tree self parent)).
Proof.
  split; [|apply filter_tree_attributes].
  rewrite filter_tree_children, <- passes_keep_rule, in_flat_map.
  split.
  - intros [c [_ Hin]]. apply in_verdict in Hin. destruct Hin as [_ Hp].
    now apply Hp.
  - intro Hp. exists child; split; [assumption|].
    apply in_verdict. split; [reflexivity | now intros _].
Qed.

(** C1, on the tree of [Ex.built] with the single include pattern
    [/g/s/p1]: project [p2] under group [g] is a leaf that no pattern
    includes. *)
Lemma C1_keep_rule_decides_witness :
  In Ex.p2_node (children Ex.g_node)
  /\ is_leaf (@as_judged literal_matchers
                (Ex.tree_of None ["/g/s/p1"] [] None false) Ex.p2_node) = true
  /\ ((In (@as_judged literal_matchers
             (Ex.tree_of None ["/g/s/p1"] [] None false) Ex.p2_node)
          (children (@filter_tree literal_matchers
                       (Ex.tree_of None ["/g/s/p1"] [] None false) Ex.g_node))
       <-> @keep_rule literal_matchers
             (Ex.tree_of None ["/g/s/p1"] [] None false)
             (@as_judged literal_matchers
                (Ex.tree_of None ["/g/s/p1"] [] None false) Ex.p2_node))
      /\ @filter_tree literal_matchers
           (Ex.tree_of None ["/g/s/p1"] [] None false) Ex.g_node =
         with_children Ex.g_node
           (children (@filter_tree literal_matchers
                        (Ex.tree_of None ["/g/s/p1"] [] None false) Ex.g_node))).
Proof.
  split; [right; left; reflexivity|].
  split; [reflexivity|].
  apply (@C1_keep_rule_decides literal_matchers
           (Ex.tree_of None ["/g/s/p1"] [] None false) Ex.g_node Ex.p2_node).
  - right; left; reflexivity.
  - reflexivity.
Defined.

(** C2. [filter_tree] prunes in post-order: a child that has children is
    filtered below first, and the keep rule is then put to it only if that
    left it without children; a child that had no children is put to the keep
    rule as it is. The result is the tree [post_order_prune] describes. *)
Theorem C2_filter_is_post_order {M : Matchers} (self : GitlabTree) (parent : Node) :
  filter_tree self parent = post_order_prune self parent
  /\ children (filter_tree self parent) =
     flat_map (fun child =>
                 if is_leaf child
                 then (if passes self child then [child] else [])
                 else
                   let child' := filter_tree self child in
                   if is_leaf child'
                   then (if passes self child' then [child'] else [])
                   else [child'])
              (children parent).
Proof.
  split.
  - induction parent as [n t u r d p cs IH] using Node_ind_nested.
    rewrite (filter_tree_attributes self), filter_tree_children.
    simpl children. rewrite (prune_below self cs IH). reflexivity.
  - rewrite filter_tree_children. apply flat_map_ext.
    intro c. unfold verdict, as_judged.
    destruct (is_leaf c) eqn:Hl; [rewrite Hl|]; reflexivity.
Qed.

(** C8. Filtering is idempotent: a second [filter_tree] with the same
    patterns detaches nothing and returns the same tree. *)
Theorem C8_filter_idempotent {M : Matchers} (self : GitlabTree) (tree : Node) :
  filter_tree self (filter_tree self tree) = filter_tree self tree.
Proof.
  induction tree as [n t u r d p cs IH] using Node_ind_nested.
  pose proof (filter_tree_children self (mkNode n t u r d p cs)) as E.
  pose proof (filter_tree_attributes self (mkNode n t u r d p cs)) as A.
  rewrite E in A; simpl children in A.
  rewrite A.
  rewrite (filter_tree_attributes self (with_children _ _)).
  rewrite filter_tree_children. simpl.
  rewrite (verdict_stable self cs IH). reflexivity.
Qed.

(** C10. A child that still has a child of its own once its subtree has been
    filtered is never detached, whatever the include and exclude patterns
    say about its [root_path]: the keep rule is put to leaves only. *)
Theorem C10_nonleaf_retained {M : Matchers} (self : GitlabTree)
        (parent child : Node)
        (Hchild : In child (children parent))
        (Hkids : is_leaf (filter_tree self child) = false) :
  In (filter_tree self child) (children (filter_tree self parent)).
Proof.
  rewrite filter_tree_children. apply in_flat_map.
  exists child; split; [assumption|].
  apply in_verdict. split.
  - unfold as_judged. destruct (is_leaf child) eqn:Hl; [|reflexivity].
    now rewrite filter_tree_leaf.
  - congruence.
Qed.

(** C10, on [Ex.built] with the exclude pattern [/g]: group [g] matches the
    exclude pattern and stays, because its descendants survive. *)
Lemma C10_nonleaf_retained_witness :
  In Ex.g_node (children Ex.built)
  /\ is_leaf (@filter_tree literal_matchers
                (Ex.tree_of None [] ["/g"] None false) Ex.g_node) = false
  /\ @is_excluded literal_matchers
       (Ex.tree_of None [] ["/g"] None false) Ex.g_node = true
  /\ In (@filter_tree literal_matchers
           (Ex.tree_of None [] ["/g"] None false) Ex.g_node)
        (children (@filter_tree literal_matchers
                     (Ex.tree_of None [] ["/g"] None false) Ex.built)).
Proof.
  split; [left; reflexivity|].
  split; [reflexivity|].
  split; [reflexivity|].
  apply (@C10_nonleaf_retained literal_matchers
           (Ex.tree_of None [] ["/g"] None false) Ex.built Ex.g_node).
  - left; reflexivity.
  - reflexivity.
Defined.

(** The scenario of group [g] with subgroup [s] holding [p1] and with its
    own project [p2], filtered with the single include pattern [/g/s/p1]:
    [p2] goes, and [g] and [s] stay because a descendant stays. *)
Example filter_keeps_only_p1 :
  children (@filter_tree literal_matchers
              (Ex.tree_of None ["/g/s/p1"] [] None false) Ex.built)
  = [with_children Ex.g_node
       [hd Ex.built (children Ex.g_node)]].
Proof. reflexivity. Qed.

(** With [/g/s/p1] excluded and nothing else, subgroup [s] loses its only
    project, is then judged as a leaf, passes, and stays as an empty
    subgroup; with [/g/s] excluded as well it is detached. *)
Example emptied_subgroup_is_judged :
  map name
      (children (hd Ex.built
                    (children (@filter_tree literal_matchers
                                 (Ex.tree_of None [] ["/g/s/p1"] None false)
                                 Ex.built))))
  = ["s"; "p2"]
  /\ map name
         (children (hd Ex.built
                       (children (@filter_tree literal_matchers
                                    (Ex.tree_of None [] ["/g/s/p1"; "/g/s"]
                                                None false)
                                    Ex.built))))
     = ["p2"].
Proof. split; reflexivity. Qed.

(** ** The builder *)

Lemma append_assoc (a b c : string) :
  ((a ++ b) ++ c)%string = (a ++ (b ++ c))%string.
Proof. induction a as [|x a IH]; simpl; [reflexivity | now rewrite IH]. Qed.

Lemma join_snoc (sep : string) (l : list string) (x : string) :
  l <> [] ->
  PyStr.join sep (l ++ [x]) = (PyStr.join sep l ++ sep ++ x)%string.
Proof.
  unfold PyStr.join.
  induction l as [|a l IH]; [contradiction|]. intros _.
  destruct l as [|b l]; [reflexivity|].
  change (String.concat sep ((a :: b :: l) ++ [x]))
    with (a ++ sep ++ String.concat sep ((b :: l) ++ [x]))%string.
  rewrite IH by discriminate.
  change (String.concat sep (a :: b :: l))
    with (a ++ sep ++ String.concat sep (b :: l))%string.
  now rewrite !append_assoc.
Qed.

Lemma root_path_of_suffix (names : list string) (d : option string) :
  names <> [] ->
  root_path_of names d = (PyStr.join "/" names ++ branch_suffix d)%string.
Proof.
  intro Hne. unfold root_path_of, branch_suffix.
  assert (forall s : string, (s ++ "")%string = s) as nil_r
      by (induction s as [|c s IH]; simpl; [reflexivity | now rewrite IH]).
  destruct d as [b|]; [|now rewrite nil_r].
  destruct (PyStr.truthy b); [|now rewrite nil_r].
  now apply join_snoc.
Qed.

Section BuilderProperties.
Variable self : GitlabTree.
Local Abbreviation bb := (names_by_branch self).

Lemma chain_ok_unfold (anc : list string) (n : Node) :
  chain_ok bb anc n <->
  root_path n = root_path_of (anc ++ [name n]) (default_branch n)
  /\ (children n <> [] -> default_branch n = None)
  /\ (default_branch n <> None -> bb = true)
  /\ Forall (chain_ok bb (anc ++ [name n])) (children n).
Proof.
  destruct n as [nm t u r d p cs]; simpl.
  assert (forall l,
             (fix all (l : list Node) : Prop :=
                match l with
                | [] => True
                | c :: l' => chain_ok bb (anc ++ [nm]) c /\ all l'
                end) l <-> Forall (chain_ok bb (anc ++ [nm])) l) as E.
  { induction l as [|c l IH]; simpl.
    - split; auto.
    - rewrite IH. split.
      + intros [? ?]; now constructor.
      + inversion 1; auto. }
  rewrite E. reflexivity.
Qed.

Lemma chain_ok_make_node (type nm : string) (pp : list string) (u : string)
      (db : option string) (pb : option (list string)) :
  (truthy_opt db = true -> bb = true) ->
  chain_ok bb pp (make_node type nm pp u db pb).
Proof.
  intro Hb. apply chain_ok_unfold. unfold make_node; simpl.
  repeat split.
  - unfold root_path_of, truthy_opt in *.
    destruct db as [b|]; [|reflexivity].
    destruct (PyStr.truthy b) eqn:Ht; [now rewrite Ht | reflexivity].
  - intro H; now contradiction H.
  - intro H. apply Hb. destruct (truthy_opt db); [reflexivity | now contradiction H].
  - constructor.
Qed.

Lemma chain_ok_with_children (pp : list string) (n : Node) (cs : list Node) :
  chain_ok bb pp n ->
  default_branch n = None ->
  Forall (chain_ok bb (pp ++ [name n])) cs ->
  chain_ok bb pp (with_children n cs).
Proof.
  intros Hn Hd Hcs. apply chain_ok_unfold in Hn.
  destruct Hn as (Hr & _ & Hb & _).
  apply chain_ok_unfold. unfold with_children; simpl. auto.
Qed.

Lemma add_projects_ok (pp : list string) (ps : list Project) :
  Forall (chain_ok bb pp) (add_projects self pp ps).
Proof.
  unfold add_projects. apply Forall_flat_map, Forall_forall.
  intros pr _. unfold add_project.
  match goal with
  | |- Forall _ (match ?x with Some _ => _ | None => _ end) => destruct x
  end; [|constructor].
  constructor; [|constructor].
  apply chain_ok_make_node. unfold names_by_branch.
  destruct (naming self) as [[| |]|]; simpl; congruence.
Qed.

Lemma get_projects_ok (g : Group) (pp : list string) :
  Forall (chain_ok bb pp) (fst (get_projects self g pp)).
Proof.
  unfold get_projects.
  destruct (projects g); simpl; [|constructor|constructor].
  destruct (include_shared self); [|apply add_projects_ok].
  destruct (shared_projects g) as [[| |]|]; simpl;
    try apply add_projects_ok.
  apply Forall_app; split; apply add_projects_ok.
Qed.

Lemma subgroup_node_ok (pp : list string) (nm u : string) (cs : list Node) :
  Forall (chain_ok bb (pp ++ [nm])) cs ->
  chain_ok bb pp (with_children (make_node "subgroup" nm pp u None None) cs).
Proof.
  intro Hcs. apply chain_ok_with_children; [|reflexivity|exact Hcs].
  apply chain_ok_make_node. discriminate.
Qed.

Lemma get_subgroups_ok (g : Group) :
  forall pp, Forall (chain_ok bb pp) (fst (get_subgroups self g pp)).
Proof.
  induction g as [g Hsub] using Group_ind_nested. intro pp.
  destruct g as [n p w i subgroups projs shared]; simpl in *.
  destruct subgroups as [defs| |]; simpl; try constructor.
  induction defs as [|f defs IH]; simpl; [constructor|].
  destruct f as [sg| |]; simpl in Hsub; try (now apply IH); [|constructor].
  inversion Hsub as [|? ? Hsg Hrest]; subst.
  specialize (IH Hrest).
  match goal with
  | |- context [get_subgroups self sg ?path] =>
      specialize (Hsg path); destruct (get_subgroups self sg path) as [subs raised]
  end.
  simpl in Hsg.
  destruct raised; simpl.
  { constructor; [|constructor]. now apply subgroup_node_ok. }
  match goal with
  | |- context [get_projects self sg ?path] =>
      pose proof (get_projects_ok sg path) as Hp;
      destruct (get_projects self sg path) as [projs' raised']
  end.
  simpl in Hp.
  assert (Forall (chain_ok bb
                    (pp ++ [match naming self with
                            | Some NAME => group_name sg
                            | _ => group_path sg
                            end])) (subs ++ projs')) as Hall
      by (apply Forall_app; split; assumption).
  destruct raised'; simpl.
  { constructor; [|constructor]. now apply subgroup_node_ok. }
  match goal with
  | |- context [match ?t with pair _ _ => _ end] => destruct t as [more r'']
  end.
  simpl in *. constructor; [|exact IH]. now apply subgroup_node_ok.
Qed.

Lemma load_group_ok (rp : list string) (g : Group) :
  Forall (chain_ok bb rp) (load_group self rp g).
Proof.
  unfold load_group. destruct (parent_id g); [constructor|].
  match goal with
  | |- context [get_subgroups self g ?path] =>
      pose proof (get_subgroups_ok g path) as Hs;
      destruct (get_subgroups self g path) as [subs raised]
  end.
  simpl in Hs.
  assert (forall nm u cs,
             Forall (chain_ok bb (rp ++ [nm])) cs ->
             chain_ok bb rp (with_children (make_node "group" nm rp u None None) cs))
    as group_node_ok.
  { intros nm u cs Hcs. apply chain_ok_with_children; [|reflexivity|exact Hcs].
    apply chain_ok_make_node. discriminate. }
  destruct raised.
  { constructor; [|constructor]. now apply group_node_ok. }
  match goal with
  | |- context [get_projects self g ?path] =>
      pose proof (get_projects_ok g path) as Hp;
      destruct (get_projects self g path) as [projs raised']
  end.
  simpl in Hp. constructor; [|constructor].
  apply group_node_ok. apply Forall_app; split; assumption.
Qed.

Lemma root_chain_ok (r : Node) (extra : list Node) :
  chain_ok bb [] r ->
  default_branch r = None ->
  Forall (chain_ok bb [name r]) extra ->
  chain_ok bb [] (with_children r (children r ++ extra)).
Proof.
  intros Hr Hd Hx. apply chain_ok_with_children; [assumption..|].
  apply Forall_app; split; [|exact Hx].
  apply chain_ok_unfold in Hr. apply Hr.
Qed.

Lemma load_gitlab_tree_ok (groups : Listing Group) :
  chain_ok bb [] (root self) ->
  default_branch (root self) = None ->
  chain_ok bb [] (load_gitlab_tree self groups).
Proof.
  intros Hr Hd. unfold load_gitlab_tree.
  destruct groups as [gs| |]; try assumption.
  apply root_chain_ok; try assumption.
  apply Forall_flat_map, Forall_forall. intros g _. apply load_group_ok.
Qed.

Lemma load_user_tree_ok (user : UserAnswer) :
  chain_ok bb [] (root self) ->
  default_branch (root self) = None ->
  chain_ok bb [] (load_user_tree self user).
Proof.
  intros Hr Hd. unfold load_user_tree.
  destruct user as [[username ps]|]; try assumption.
  apply root_chain_ok; try assumption.
  constructor; [|constructor].
  apply chain_ok_with_children; [|reflexivity|].
  - apply chain_ok_make_node. discriminate.
  - apply add_projects_ok.
Qed.

Lemma chain_ok_within (n m : Node) :
  within n m -> forall anc, chain_ok bb anc n -> exists anc', chain_ok bb anc' m.
Proof.
  induction 1 as [n | n c m Hin _ IH]; intros anc Hn; [eauto|].
  apply chain_ok_unfold in Hn. destruct Hn as (_ & _ & _ & Hcs).
  rewrite Forall_forall in Hcs. eauto.
Qed.

Lemma chain_ok_edge (anc : list string) (parent child : Node) :
  chain_ok bb anc parent ->
  In child (children parent) ->
  path_rule parent child /\ (default_branch child <> None -> bb = true).
Proof.
  intros Hp Hin. apply chain_ok_unfold in Hp.
  destruct Hp as (Hr & Hnone & _ & Hcs).
  rewrite Forall_forall in Hcs. specialize (Hcs child Hin).
  apply chain_ok_unfold in Hcs. destruct Hcs as (Hrc & _ & Hb & _).
  split; [|exact Hb].
  unfold path_rule. rewrite Hrc, Hr.
  rewrite Hnone by (intro E; rewrite E in Hin; contradiction).
  rewrite !root_path_of_suffix by (intro E; apply app_eq_nil in E; destruct E; discriminate).
  rewrite join_snoc by (intro E; apply app_eq_nil in E; destruct E; discriminate).
  simpl branch_suffix at 2.
  rewrite !append_assoc. simpl. reflexivity.
Qed.
Lemma chain_ok_names (anc : list string) (parent child : Node) :
  chain_ok bb anc parent ->
  In child (children parent) ->
  root_path parent = PyStr.join "/" (anc ++ [name parent])
  /\ root_path child =
     (PyStr.join "/" (anc ++ [name parent; name child])
        ++ branch_suffix (default_branch child))%string.
Proof.
  intros Hp Hin. apply chain_ok_unfold in Hp.
  destruct Hp as (Hr & Hnone & _ & Hcs).
  rewrite Forall_forall in Hcs. specialize (Hcs child Hin).
  apply chain_ok_unfold in Hcs. destruct Hcs as (Hrc & _ & _ & _).
  rewrite Hnone in Hr by (intro E; rewrite E in Hin; contradiction).
  split; [exact Hr|].
  rewrite Hrc, <- app_assoc.
  apply root_path_of_suffix.
  intro E; apply app_eq_nil in E; destruct E; discriminate.
Qed.
End BuilderProperties.

(** C9. In a tree made by the builder, from the groups of the server or from
    the projects of the user, every node below the root has as [root_path]
    the [root_path] of its parent, a slash and its own name, followed by a
    slash and the default branch when it has one, which happens under branch
    naming only; both paths are the names along the chain of ancestors joined
    by slashes, as [make_node] computed them when the node was attached. *)
Theorem C9_root_path_rule (self : GitlabTree) (groups : Listing Group)
        (user : UserAnswer) (parent child : Node)
        (Hroot : root self = initial_root (self_url self))
        (Hparent : within (load_gitlab_tree self groups) parent
                   \/ within (load_user_tree self user) parent)
        (Hchild : In child (children parent)) :
  path_rule parent child
  /\ (default_branch child <> None -> naming self = Some BRANCH)
  /\ exists ancestors,
      root_path parent = PyStr.join "/" (ancestors ++ [name parent])
      /\ root_path child =
         (PyStr.join "/" (ancestors ++ [name parent; name child])
            ++ branch_suffix (default_branch child))%string.
Proof.
  assert (chain_ok (names_by_branch self) [] (root self)) as Hr
      by (rewrite Hroot; simpl; repeat split; congruence).
  assert (default_branch (root self) = None) as Hd by now rewrite Hroot.
  assert (exists anc, chain_ok (names_by_branch self) anc parent) as [anc Hp].
  { destruct Hparent as [H | H].
    - eapply chain_ok_within; [exact H|]. now apply load_gitlab_tree_ok.
    - eapply chain_ok_within; [exact H|]. now apply load_user_tree_ok. }
  destruct (chain_ok_edge self anc parent child Hp Hchild) as [Hrule Hb].
  split; [exact Hrule|]. split.
  - intro H. specialize (Hb H). unfold names_by_branch in Hb.
    destruct (naming self) as [[| |]|]; congruence.
  - exists anc. now apply (chain_ok_names self).
Qed.

(** C9, on [Ex.built_by_branch]: project [p1] under subgroup [s] has the
    path [/g/s/p1/main]. *)
Lemma C9_root_path_rule_witness :
  root (Ex.tree_of (Some BRANCH) [] [] None false) =
  initial_root (self_url (Ex.tree_of (Some BRANCH) [] [] None false))
  /\ within (load_gitlab_tree (Ex.tree_of (Some BRANCH) [] [] None false) Ex.remote)
            Ex.s_node_by_branch
  /\ In Ex.p1_node_by_branch (children Ex.s_node_by_branch)
  /\ root_path Ex.p1_node_by_branch = "/g/s/p1/main"
  /\ path_rule Ex.s_node_by_branch Ex.p1_node_by_branch.
Proof.
  assert (within (load_gitlab_tree (Ex.tree_of (Some BRANCH) [] [] None false)
                                   Ex.remote)
                 Ex.s_node_by_branch) as Hw.
  { apply within_child with (c := hd Ex.built (children Ex.built_by_branch));
      [left; reflexivity|].
    apply within_child with (c := Ex.s_node_by_branch); [left; reflexivity|].
    apply within_here. }
  split; [reflexivity|]. split; [exact Hw|].
  split; [left; reflexivity|]. split; [reflexivity|].
  apply (C9_root_path_rule (Ex.tree_of (Some BRANCH) [] [] None false)
                           Ex.remote None Ex.s_node_by_branch
                           Ex.p1_node_by_branch eq_refl (or_introl Hw)
                           (or_introl eq_refl)).
Defined.


(** ** Export and import *)

Lemma export_unfold (n : Node) :
  export n =
  mkDict (exported_items n)
         match children n with
         | [] => None
         | cs => Some (map export cs)
         end.
Proof.
  destruct n as [n t u r d p cs]; simpl. unfold exported_items; simpl.
  f_equal. destruct cs as [|c cs]; reflexivity.
Qed.

Lemma import_unfold (d : Dict) :
  import_ d =
  match get_str "name" (items d), get_str "type" (items d),
        get_str "url" (items d), get_str "root_path" (items d),
        get_opt_str "default_branch" (items d),
        get_opt_list "protected_branches" (items d),
        all_some (map import_ (listed_children d)) with
  | Some n, Some t, Some u, Some r, Some db, Some pb, Some cs =>
      Some (mkNode n t u r db pb cs)
  | _, _, _, _, _, _, _ => None
  end.
Proof.
  destruct d as [i ch]; simpl.
  assert (forall l,
             (fix go (l : list Dict) : option (list Node) :=
                match l with
                | [] => Some []
                | c :: l' =>
                    match import_ c, go l' with
                    | Some n, Some ns => Some (n :: ns)
                    | _, _ => None
                    end
                end) l = all_some (map import_ l)) as E.
  { induction l as [|c l IH]; simpl; [reflexivity|]. rewrite IH.
    destruct (import_ c); [|reflexivity].
    destruct (all_some (map import_ l)); reflexivity. }
  unfold listed_children; simpl.
  destruct ch as [l|]; [rewrite E|]; reflexivity.
Qed.

Lemma exported_items_read (n : Node) :
  get_str "name" (exported_items n) = Some (name n)
  /\ get_str "type" (exported_items n) = Some (type_ n)
  /\ get_str "url" (exported_items n) = Some (url n)
  /\ get_str "root_path" (exported_items n) = Some (root_path n)
  /\ get_opt_str "default_branch" (exported_items n) = Some (default_branch n)
  /\ get_opt_list "protected_branches" (exported_items n)
     = Some (protected_branches n).
Proof.
  unfold exported_items, get_str, get_opt_str, get_opt_list.
  destruct (default_branch n), (protected_branches n); simpl; repeat split.
Qed.

Lemma import_export (n : Node) : import_ (export n) = Some n.
Proof.
  induction n as [n t u r d p cs IH] using Node_ind_nested.
  rewrite import_unfold, export_unfold.
  set (node := mkNode n t u r d p cs).
  destruct (exported_items_read node) as (E1 & E2 & E3 & E4 & E5 & E6).
  cbn [items]. rewrite E1, E2, E3, E4, E5, E6.
  assert (all_some (map import_ (map export cs)) = Some cs) as E.
  { clear -IH. induction IH as [|c cs Hc _ IHcs]; simpl; [reflexivity|].
    now rewrite Hc, IHcs. }
  unfold listed_children; cbn [children_item].
  subst node; cbn [children name type_ url root_path default_branch protected_branches].
  destruct cs as [|c cs]; [reflexivity|].
  rewrite E. reflexivity.
Qed.

Lemma same_mapping_unfold (d d' : Dict) :
  same_mapping d d' <->
  (forall k, get k (items d) = get k (items d'))
  /\ match children_item d, children_item d' with
     | None, None => True
     | Some l, Some l' => Forall2 same_mapping l l'
     | _, _ => False
     end.
Proof.
  destruct d as [i ch]; simpl.
  assert (forall l l',
             (fix all (l : list Dict) (l' : list Dict) : Prop :=
                match l, l' with
                | [], [] => True
                | c :: r, c' :: r' => same_mapping c c' /\ all r r'
                | _, _ => False
                end) l l' <-> Forall2 same_mapping l l') as E.
  { induction l as [|c l IH]; destruct l' as [|c' l']; simpl.
    - split; auto.
    - split; [contradiction | inversion 1].
    - split; [contradiction | inversion 1].
    - rewrite IH. split.
      + intros [? ?]; now constructor.
      + inversion 1; auto. }
  destruct ch as [l|], (children_item d') as [l'|]; try reflexivity.
  rewrite E. reflexivity.
Qed.

Lemma import_same_mapping (d : Dict) :
  forall d', same_mapping d d' -> import_ d = import_ d'.
Proof.
  induction d as [d IH] using Dict_ind_nested. intros d' H.
  apply same_mapping_unfold in H. destruct H as [Hk Hc].
  rewrite (import_unfold d), (import_unfold d').
  unfold get_str, get_opt_str, get_opt_list. rewrite !Hk.
  assert (all_some (map import_ (listed_children d))
          = all_some (map import_ (listed_children d'))) as E.
  { unfold listed_children in *.
    destruct (children_item d) as [l|], (children_item d') as [l'|];
      try contradiction; [|reflexivity].
    clear Hk. induction Hc as [|c c' l l' Hcc _ IHl]; [reflexivity|].
    inversion IH as [|? ? Hhead Htail]; subst.
    simpl. rewrite (Hhead c' Hcc), (IHl Htail). reflexivity. }
  rewrite E. reflexivity.
Qed.

Lemma same_mapping_refl (d : Dict) : same_mapping d d.
Proof.
  induction d as [d IH] using Dict_ind_nested.
  apply same_mapping_unfold. split; [reflexivity|].
  unfold listed_children in IH.
  destruct (children_item d) as [l|]; [|exact I].
  induction IH; constructor; assumption.
Qed.

Lemma import_reads_root_path (d : Dict) (n : Node) :
  import_ d = Some n -> get_str "root_path" (items d) = Some (root_path n).
Proof.
  rewrite import_unfold. intro H.
  destruct (get_str "name" (items d)); [|discriminate].
  destruct (get_str "type" (items d)); [|discriminate].
  destruct (get_str "url" (items d)); [|discriminate].
  destruct (get_str "root_path" (items d)); [|discriminate].
  destruct (get_opt_str "default_branch" (items d)); [|discriminate].
  destruct (get_opt_list "protected_branches" (items d)); [|discriminate].
  destruct (all_some (map import_ (listed_children d))); [|discriminate].
  injection H as <-. reflexivity.
Qed.

(** C4, as amended. When the text layer gives back the mapping it was given,
    up to the order of the keys, loading a file that holds the YAML or the
    JSON printed for a tree gives that very tree: the same names, types,
    urls, default branches, protected branches, children and order of
    children, and the same [root_path] strings. The [root_path] of an
    imported node is the string the mapping stores under that key. *)
Theorem C4_round_trip_keeps_stored_paths {Text : Type} {C : Codec Text}
        (Hyaml : forall d, exists d',
              yaml_safe_load (yaml_dump d) = Some d' /\ same_mapping d d')
        (Hjson : forall d, exists d',
              yaml_safe_load (json_dumps d) = Some d' /\ same_mapping d d')
        (self other : GitlabTree) (src : Sources Text) (file : string)
        (Hfile : open_file src file = Some (print_tree_yaml self)
                 \/ open_file src file = Some (print_tree_json self)) :
  load_file_tree other src file = Some (root self)
  /\ (forall d n, import_ d = Some n ->
                  get_str "root_path" (items d) = Some (root_path n)).
Proof.
  split; [|exact import_reads_root_path].
  unfold load_file_tree, print_tree_yaml, print_tree_json in *.
  destruct Hfile as [-> | ->].
  - destruct (Hyaml (export (root self))) as [d' [-> Hsame]].
    rewrite <- (import_same_mapping _ _ Hsame). apply import_export.
  - destruct (Hjson (export (root self))) as [d' [-> Hsame]].
    rewrite <- (import_same_mapping _ _ Hsame). apply import_export.
Qed.

(** C4, with texts that are the mappings themselves, on [Ex.built]. *)
Lemma C4_round_trip_keeps_stored_paths_witness :
  (forall d, exists d',
        @yaml_safe_load _ Sim.plain_codec (@yaml_dump _ Sim.plain_codec d) = Some d'
        /\ same_mapping d d')
  /\ (forall d, exists d',
          @yaml_safe_load _ Sim.plain_codec (@json_dumps _ Sim.plain_codec d) = Some d'
          /\ same_mapping d d')
  /\ open_file printed_file "tree.yaml"
     = Some (@print_tree_yaml _ Sim.plain_codec holding_built)
  /\ @load_file_tree _ Sim.plain_codec (Ex.tree_of None [] [] None false)
                     printed_file "tree.yaml" = Some Ex.built.
Proof.
  assert (forall d, exists d', Some d = Some d' /\ same_mapping d d') as Hcodec
      by (intro d; exists d; split; [reflexivity | apply same_mapping_refl]).
  split; [exact Hcodec|]. split; [exact Hcodec|]. split; [reflexivity|].
  apply (@C4_round_trip_keeps_stored_paths
           _ Sim.plain_codec Hcodec Hcodec holding_built
           (Ex.tree_of None [] [] None false) printed_file "tree.yaml"
           (or_introl eq_refl)).
Defined.

(** C4 as stated fails on [Ex.built]: the export with the stored [root_path]
    of group [g] edited imports as a tree whose group has the edited string,
    so the import does not recompute the root paths. *)
Lemma C4_root_paths_not_recomputed : ~ root_paths_recomputed Ex.built.
Proof.
  intro H.
  pose proof (H edited_export _ eq_refl eq_refl) as E.
  apply (f_equal (fun t => root_path (hd t (children t)))) in E.
  vm_compute in E. discriminate E.
Qed.

(** ** The synchronisation *)

Section SyncProperties.
Context {M_ : Matchers} {W : Type} {V : Git.Vcs W}.

Lemma log_logged (l : Git.Log) (st : Git.State W) :
  Git.log_ l st = (Git.Val tt, logged st l).
Proof. reflexivity. Qed.

(** The loop of [list_branches_matching_patterns] appends the matched
    branches to what it was given. *)
Lemma matching_loop (patterns refs acc : list string) :
  (fix loop (l : list string) (expanded_branches : list string) : list string :=
     match l with
     | [] => expanded_branches
     | ref_name :: rest =>
         let prefix := "origin/" in
         if negb (PyStr.startswith ref_name prefix)
         then loop rest expanded_branches
         else
           let branch_name := PyStr.drop (String.length prefix) ref_name in
           if (fix any (ps : list string) : bool :=
                 match ps with
                 | [] => false
                 | pattern :: ps' =>
                     if fnmatch branch_name pattern then true else any ps'
                 end) patterns
           then loop rest (expanded_branches ++ [branch_name])
           else loop rest expanded_branches
     end) refs acc
  = acc ++ matched_branches refs patterns.
Proof.
  assert (forall b ps,
             (fix any (ps : list string) : bool :=
                match ps with
                | [] => false
                | pattern :: ps' => if fnmatch b pattern then true else any ps'
                end) ps = existsb (fun pattern => fnmatch b pattern) ps) as Hany.
  { induction ps as [|q ps IH]; [reflexivity|].
    simpl. rewrite <- IH. destruct (fnmatch b q); reflexivity. }
  revert acc. unfold matched_branches.
  induction refs as [|r refs IH]; intro acc.
  - cbn [filter map]. now rewrite app_nil_r.
  - cbn [filter map]. cbv zeta.
    destruct (PyStr.startswith r "origin/") eqn:Hp; cbn [negb filter map].
    + rewrite Hany. change (String.length "origin/") with 7.
      destruct (existsb (fun pattern => fnmatch (PyStr.drop 7 r) pattern) patterns)
        eqn:Hm; rewrite IH; [|reflexivity].
      now rewrite <- app_assoc.
    + apply IH.
Qed.

Lemma list_branches_matching_patterns_eq (repo : string)
      (patterns : list string) (st : Git.State W) :
  Git.list_branches_matching_patterns repo patterns st
  = (Git.Val (matched_branches (Git.references repo (Git.world st)) patterns), st).
Proof.
  unfold Git.list_branches_matching_patterns, Git.bind, Git.ask, Git.ret.
  rewrite (matching_loop patterns _ []). reflexivity.
Qed.

Lemma in_matched_branches (refs patterns : list string) (b : string) :
  In b (matched_branches refs patterns) <->
  exists r, In r refs /\ PyStr.startswith r "origin/" = true
            /\ b = PyStr.drop 7 r
            /\ exists pattern, In pattern patterns /\ fnmatch b pattern = true.
Proof.
  unfold matched_branches. rewrite filter_In, in_map_iff. split.
  - intros [[r [<- Hr]] Hm]. apply filter_In in Hr. destruct Hr as [Hr Hp].
    apply existsb_exists in Hm. eauto 8.
  - intros [r (Hr & Hp & -> & Hm)]. split.
    + exists r; split; [reflexivity|]. apply filter_In; auto.
    + apply existsb_exists. exact Hm.
Qed.

Lemma create_or_update_worktrees_eq (repo : string) (branches : list string) :
  forall st,
    Git.create_or_update_worktrees repo branches st
    = for_each (reconcile_branch repo)
               (filter (fun b => negb (Git.eq_HEAD_name b)) branches) st.
Proof.
  induction branches as [|b branches IH]; intro st; [reflexivity|].
  simpl. destruct (Git.eq_HEAD_name b); simpl; [apply IH|].
  unfold reconcile_branch, sibling_path, Git.bind, Git.ask, PyStr.pardir.
  destruct (Git.os_path_exists _ (Git.world st)).
  - destruct (Git.update_worktree _ st) as [[[]|e] st']; [apply IH | reflexivity].
  - destruct (Git.create_worktree _ _ _ st) as [[[]|e] st']; [apply IH | reflexivity].
Qed.

Lemma call_outcome (c : Git.Call) (st : Git.State W) :
  raises_errors_only ->
  (exists st', Git.call c st = (Git.Val tt, st'))
  \/ (exists msg st', Git.call c st = (Git.Raise (Git.Exception msg), st')).
Proof.
  intro Hmild. unfold Git.call.
  destruct (Git.perform c (Git.world st)) as [[e|] w] eqn:E.
  - right. destruct (Hmild c (Git.world st) e) as [msg ->]; [now rewrite E|].
    eauto.
  - left. eauto.
Qed.

Lemma update_worktree_returns (path : string) (st : Git.State W) :
  raises_errors_only ->
  exists st', Git.update_worktree path st = (Git.Val tt, st').
Proof.
  intro Hmild. unfold Git.update_worktree, Git.try_except.
  destruct (call_outcome (Git.git_pull path) st Hmild)
    as [[st' ->] | [msg [st' ->]]]; [eauto|].
  rewrite log_logged. eauto.
Qed.

Lemma create_worktree_returns (repo path branch : string) (st : Git.State W) :
  raises_errors_only ->
  exists st', Git.create_worktree repo path branch st = (Git.Val tt, st').
Proof.
  intro Hmild. unfold Git.create_worktree, Git.try_except.
  destruct (call_outcome (Git.worktree_add repo path branch) st Hmild)
    as [[st' ->] | [msg [st' ->]]]; [eauto|].
  rewrite log_logged. eauto.
Qed.

Lemma reconcile_branch_returns (repo branch : string) (st : Git.State W) :
  raises_errors_only ->
  exists st', reconcile_branch repo branch st = (Git.Val tt, st').
Proof.
  intro Hmild. unfold reconcile_branch, Git.bind, Git.ask.
  destruct (Git.os_path_exists _ (Git.world st)).
  - now apply update_worktree_returns.
  - now apply create_worktree_returns.
Qed.

Lemma create_or_update_worktrees_returns (repo : string)
      (branches : list string) :
  raises_errors_only ->
  forall st, exists st',
      Git.create_or_update_worktrees repo branches st = (Git.Val tt, st').
Proof.
  intros Hmild st. rewrite create_or_update_worktrees_eq.
  generalize (filter (fun b => negb (Git.eq_HEAD_name b)) branches) as l.
  intro l. revert st. induction l as [|b l IH]; intro st.
  - simpl. unfold Git.ret. eauto.
  - simpl. unfold Git.bind.
    destruct (reconcile_branch_returns repo b st Hmild) as [st' ->]. apply IH.
Qed.

Lemma reconcile_returns (repo : string) (action : Git.GitAction)
      (st : Git.State W) :
  raises_errors_only ->
  exists st',
    Git.create_or_update_protected_branch_worktrees repo action st
    = (Git.Val tt, st').
Proof.
  intro Hmild. unfold Git.create_or_update_protected_branch_worktrees.
  destruct (protected_branches (Git.node action)) as [[|q ps]|];
    try (unfold Git.ret; eauto; fail).
  unfold Git.bind. rewrite list_branches_matching_patterns_eq.
  now apply create_or_update_worktrees_returns.
Qed.

Lemma update_step_outcome (action : Git.GitAction) (st : Git.State W) :
  raises_errors_only ->
  (exists repo st', Git.update_step action st = (Git.Val repo, st'))
  \/ (exists msg st',
         Git.update_step action st = (Git.Raise (Git.Exception msg), st')).
Proof.
  intro Hmild. unfold Git.update_step, Git.bind. cbv zeta.
  assert (forall c s,
             (exists s', (if Git.recursive action then Git.call c else Git.ret tt) s
                         = (Git.Val tt, s'))
             \/ (exists msg s',
                    (if Git.recursive action then Git.call c else Git.ret tt) s
                    = (Git.Raise (Git.Exception msg), s'))) as Hsub.
  { intros c s. destruct (Git.recursive action);
      [now apply call_outcome | left; unfold Git.ret; eauto]. }
  destruct (negb (Git.use_fetch action)).
  - destruct (call_outcome (Git.origin_pull (Git.path action)) st Hmild)
      as [[st' E] | [msg [st' E]]]; rewrite E; cbv beta iota; [|eauto].
    destruct (Hsub (Git.submodule_update (Git.path action)) st')
      as [[s' E'] | [msg [s' E']]]; rewrite E'; unfold Git.ret; eauto.
  - destruct (call_outcome (Git.origin_fetch (Git.path action)) st Hmild)
      as [[st' E] | [msg [st' E]]]; rewrite E; cbv beta iota; [|eauto].
    destruct (Hsub (Git.submodule_update (Git.path action)) st')
      as [[s' E'] | [msg [s' E']]]; rewrite E'; unfold Git.ret; eauto.
Qed.

Lemma clone_step_outcome (action : Git.GitAction) (st : Git.State W) :
  raises_errors_only ->
  (exists repo st', Git.clone_step action st = (Git.Val repo, st'))
  \/ (exists msg st',
         Git.clone_step action st = (Git.Raise (Git.Exception msg), st')).
Proof.
  intro Hmild. unfold Git.clone_step, Git.bind, Git.ret.
  destruct (call_outcome
              (Git.clone_from (url (Git.node action)) (Git.path action)
                              (Git.multi_options_of action)) st Hmild)
    as [[st' ->] | [msg [st' ->]]]; eauto.
Qed.

(** The two branches of [clone_or_pull_project], once the test of
    [is_git_repo] and the debug line are passed. *)
Lemma clone_or_pull_project_update (action : Git.GitAction) (st : Git.State W) :
  Git.valid_repo (Git.path action) (Git.world st) = true ->
  Git.clone_or_pull_project action st
  = Git.try_except_else
      (Git.update_step action)
      (Git.bind (Git.log_ Git.fatal_user_interrupted) (fun _ => Git.sys_exit 0))
      (fun e => Git.log_ (Git.error_pulling_project (Git.path action) e))
      (fun repo => Git.create_or_update_protected_branch_worktrees repo action)
      (logged st (Git.debug_updating_existing_project (Git.path action))).
Proof.
  intro H. unfold Git.clone_or_pull_project, Git.bind at 1, Git.is_git_repo, Git.ask.
  rewrite H. reflexivity.
Qed.

Lemma clone_or_pull_project_clone (action : Git.GitAction) (st : Git.State W) :
  Git.valid_repo (Git.path action) (Git.world st) = false ->
  type_ (Git.node action) = "project" ->
  Git.clone_or_pull_project action st
  = Git.try_except_else
      (Git.clone_step action)
      (Git.bind (Git.log_ Git.fatal_user_interrupted) (fun _ => Git.sys_exit 0))
      (fun e => Git.log_ (Git.error_cloning_project (Git.path action) e))
      (fun repo => Git.create_or_update_protected_branch_worktrees repo action)
      (logged st (Git.debug_cloning_new_project (Git.path action))).
Proof.
  intros H Ht. unfold Git.clone_or_pull_project, Git.bind at 1, Git.is_git_repo, Git.ask.
  rewrite H, Ht. reflexivity.
Qed.

Lemma clone_or_pull_project_skip (action : Git.GitAction) (st : Git.State W) :
  Git.valid_repo (Git.path action) (Git.world st) = false ->
  type_ (Git.node action) <> "project" ->
  Git.clone_or_pull_project action st
  = (Git.Val tt, logged st (Git.debug_skipping_clone (type_ (Git.node action)))).
Proof.
  intros H Ht. unfold Git.clone_or_pull_project, Git.bind at 1, Git.is_git_repo, Git.ask.
  rewrite H. apply String.eqb_neq in Ht. rewrite Ht. reflexivity.
Qed.

Lemma clone_or_pull_project_returns (action : Git.GitAction) (st : Git.State W) :
  raises_errors_only ->
  exists st', Git.clone_or_pull_project action st = (Git.Val tt, st').
Proof.
  intro Hmild.
  destruct (Git.valid_repo (Git.path action) (Git.world st)) eqn:Hrepo.
  - rewrite clone_or_pull_project_update by assumption.
    unfold Git.try_except_else.
    destruct (update_step_outcome
                action
                (logged st (Git.debug_updating_existing_project (Git.path action)))
                Hmild) as [[repo [st' ->]] | [msg [st' ->]]].
    + now apply reconcile_returns.
    + rewrite log_logged. eauto.
  - destruct (String.eqb_spec (type_ (Git.node action)) "project") as [Ht | Ht].
    + rewrite clone_or_pull_project_clone by assumption.
      unfold Git.try_except_else.
      destruct (clone_step_outcome
                  action
                  (logged st (Git.debug_cloning_new_project (Git.path action)))
                  Hmild) as [[repo [st' ->]] | [msg [st' ->]]].
      * now apply reconcile_returns.
      * rewrite log_logged. eauto.
    + rewrite clone_or_pull_project_skip by assumption. eauto.
Qed.

(** Every action [get_git_actions] makes carries the three flags it was
    given and no git options. *)
Lemma get_git_actions_options (dest : string) (r f h : bool) (root : Node) :
  forall st acts st',
    Git.get_git_actions root dest r f h st = (Git.Val acts, st') ->
    Forall (fun a => Git.git_options a = None
                     /\ Git.recursive a = r /\ Git.use_fetch a = f) acts.
Proof.
  induction root as [n t u rp d p cs IH] using Node_ind_nested.
  cbn [Git.get_git_actions].
  match goal with
  | |- forall st acts st', ?F cs _ st = _ -> _ => set (loop := F)
  end.
  assert (forall actions,
             Forall (fun a => Git.git_options a = None
                              /\ Git.recursive a = r /\ Git.use_fetch a = f)
                    actions ->
             forall st acts st',
               loop cs actions st = (Git.Val acts, st') ->
               Forall (fun a => Git.git_options a = None
                                /\ Git.recursive a = r /\ Git.use_fetch a = f)
                      acts) as Hloop.
  { induction IH as [|c cs Hc _ IHcs]; intros actions Hacc st acts st' H.
    - injection H as <- _. exact Hacc.
    - unfold loop in H.
      cbn -[Git.bind Git.ask Git.call Git.ret Git.get_git_actions is_leaf negb app]
        in H.
      fold loop in H.
      unfold Git.bind at 1 2, Git.ask in H.
      destruct ((if negb (Git.os_path_exists (dest ++ root_path c) (Git.world st))
                 then Git.call (Git.makedirs (dest ++ root_path c))
                 else Git.ret tt) st) as [[[]|e] st1]; [|discriminate H].
      destruct (is_leaf c); cbn [negb] in H.
      + apply IHcs in H; [exact H|].
        apply Forall_app; split; [exact Hacc|].
        constructor; [|constructor]. repeat split.
      + unfold Git.bind at 1 in H.
        destruct (Git.get_git_actions c dest r f h st1) as [[more|e] st2] eqn:E;
          [|discriminate H].
        apply IHcs in H; [exact H|].
        apply Forall_app; split; [exact Hacc|]. exact (Hc _ _ _ E). }
  apply Hloop. constructor.
Qed.

End SyncProperties.


(** C7. An action whose destination is not a valid repository and whose node
    is of another type than [project] (an empty group or subgroup) writes its
    debug line and returns: no clone, no other command, the world as it
    was. *)
Theorem C7_non_project_leaf_skipped {M_ : Matchers} {W : Type} {V : Git.Vcs W}
        (action : Git.GitAction) (st : Git.State W)
        (Hrepo : Git.valid_repo (Git.path action) (Git.world st) = false)
        (Hkind : type_ (Git.node action) <> "project") :
  Git.clone_or_pull_project action st
  = (Git.Val tt, logged st (Git.debug_skipping_clone (type_ (Git.node action))))
  /\ Git.calls (snd (Git.clone_or_pull_project action st)) = Git.calls st
  /\ Git.world (snd (Git.clone_or_pull_project action st)) = Git.world st.
Proof.
  rewrite clone_or_pull_project_skip by assumption.
  repeat split.
Qed.

(** C7, for the empty group of [Run], even with the recursive and the fetch
    flags set. *)
Lemma C7_non_project_leaf_skipped_witness :
  @Git.valid_repo _ Sim.vcs (Git.path Run.empty_group_action)
                  (Git.world (Sim.start Run.dest_made)) = false
  /\ type_ (Git.node Run.empty_group_action) <> "project"
  /\ Git.calls (snd (@Git.clone_or_pull_project
                       literal_matchers _ Sim.vcs Run.empty_group_action
                       (Sim.start Run.dest_made))) = [].
Proof.
  split; [reflexivity|]. split; [discriminate|].
  apply (@C7_non_project_leaf_skipped
           literal_matchers _ Sim.vcs Run.empty_group_action
           (Sim.start Run.dest_made) eq_refl).
  discriminate.
Defined.

(** The reconciliation as it is coded. For a node with a non-empty list of
    protected patterns it takes the reference names that start with
    [origin/], strips that prefix, keeps those that [fnmatch] matches
    against at least one pattern, leaves out those the comparison with
    [git.HEAD.name] accepts, and for each other one pulls the sibling path
    when it exists and adds a worktree checked out to the branch when it
    does not. It runs after a successful pull, fetch or clone. *)
Lemma reconciliation_as_coded
        {M_ : Matchers} {W : Type} {V : Git.Vcs W}
        (repo : string) (action : Git.GitAction) (patterns : list string)
        (st : Git.State W)
        (Hprotected : protected_branches (Git.node action) = Some patterns)
        (Hsome : patterns <> []) :
  Git.create_or_update_protected_branch_worktrees repo action st
  = reconcile_skipping Git.eq_HEAD_name repo patterns st
  /\ (forall b,
         In b (matched_branches (Git.references repo (Git.world st)) patterns)
         <-> exists r, In r (Git.references repo (Git.world st))
                       /\ PyStr.startswith r "origin/" = true
                       /\ b = PyStr.drop 7 r
                       /\ exists pattern, In pattern patterns
                                          /\ fnmatch b pattern = true)
  /\ (forall st0 r,
         Git.valid_repo (Git.path action) (Git.world st0) = true ->
         Git.update_step action
           (logged st0 (Git.debug_updating_existing_project (Git.path action)))
         = (Git.Val r, st) ->
         Git.clone_or_pull_project action st0
         = Git.create_or_update_protected_branch_worktrees r action st)
  /\ (forall st0 r,
         Git.valid_repo (Git.path action) (Git.world st0) = false ->
         type_ (Git.node action) = "project" ->
         Git.clone_step action
           (logged st0 (Git.debug_cloning_new_project (Git.path action)))
         = (Git.Val r, st) ->
         Git.clone_or_pull_project action st0
         = Git.create_or_update_protected_branch_worktrees r action st).
Proof.
  split; [|split; [|split]].
  - unfold Git.create_or_update_protected_branch_worktrees, reconcile_skipping.
    rewrite Hprotected.
    destruct patterns as [|q ps]; [now contradiction Hsome|].
    unfold Git.bind. rewrite list_branches_matching_patterns_eq.
    unfold Git.ask. apply create_or_update_worktrees_eq.
  - intro b. apply in_matched_branches.
  - intros st0 r Hrepo Hstep.
    rewrite clone_or_pull_project_update by assumption.
    unfold Git.try_except_else. rewrite Hstep. reflexivity.
  - intros st0 r Hrepo Hkind Hstep.
    rewrite clone_or_pull_project_clone by assumption.
    unfold Git.try_except_else. rewrite Hstep. reflexivity.
Qed.

(** C5 fails on the code. Project [p1] of [Run] was cloned earlier, its
    repository has [main] checked out and [main] is its protected pattern.
    The references [origin/HEAD], [origin/main], [origin/dev] leave the one
    matched branch [main]; the test [branch == git.HEAD.name] does not take
    it out, and the reconciliation adds a worktree for the very branch the
    repository has checked out, at [/dest/g/s/p1/../main]. Read with the
    checked-out branch skipped, the claim asks for no call here. *)
Theorem C5_checked_out_branch_gets_worktree :
  Sim.active_branch Run.cloned = "main"
  /\ fst (@Git.list_branches_matching_patterns
            literal_matchers _ Sim.vcs "/dest/g/s/p1" ["main"]
            (Sim.start Run.cloned))
     = Git.Val ["main"]
  /\ Git.calls
       (snd (@Git.clone_or_pull_project
               literal_matchers _ Sim.vcs Run.p1_action (Sim.start Run.cloned)))
     = [Git.origin_pull "/dest/g/s/p1";
        Git.worktree_add "/dest/g/s/p1" "/dest/g/s/p1/../main" "main"]
  /\ Git.calls
       (snd (@reconcile_skipping
               literal_matchers _ Sim.vcs
               (String.eqb (Sim.active_branch Run.cloned)) "/dest/g/s/p1"
               ["main"] (Sim.start Run.cloned)))
     = []
  /\ ~ reconcile_as_stated Run.cloned "/dest/g/s/p1" Run.p1_action ["main"].
Proof.
  split; [reflexivity|]. split; [reflexivity|]. split; [reflexivity|].
  split; [reflexivity|].
  unfold reconcile_as_stated. intro H.
  apply (f_equal (fun r => Git.calls (snd r))) in H.
  vm_compute in H. discriminate H.
Qed.

(** What one action does with what its commands raise. An interrupt from
    the keyboard raised by the pull, the fetch or the update of the
    submodules of an update, or by the clone, is logged as fatal and leaves
    the action as [SystemExit 0]. An error raised there is caught, logged,
    and lets the action return. In a world whose commands raise nothing but
    errors every action returns normally. *)
Lemma action_outcomes
        {M_ : Matchers} {W : Type} {V : Git.Vcs W}
        (action : Git.GitAction) (st : Git.State W) :
  (forall st1,
      Git.valid_repo (Git.path action) (Git.world st) = true ->
      Git.update_step action
        (logged st (Git.debug_updating_existing_project (Git.path action)))
      = (Git.Raise Git.KeyboardInterrupt, st1) ->
      Git.clone_or_pull_project action st
      = (Git.Raise (Git.SystemExit 0), logged st1 Git.fatal_user_interrupted))
  /\ (forall st1,
         Git.valid_repo (Git.path action) (Git.world st) = false ->
         type_ (Git.node action) = "project" ->
         Git.clone_step action
           (logged st (Git.debug_cloning_new_project (Git.path action)))
         = (Git.Raise Git.KeyboardInterrupt, st1) ->
         Git.clone_or_pull_project action st
         = (Git.Raise (Git.SystemExit 0), logged st1 Git.fatal_user_interrupted))
  /\ (forall st1 msg,
         Git.valid_repo (Git.path action) (Git.world st) = true ->
         Git.update_step action
           (logged st (Git.debug_updating_existing_project (Git.path action)))
         = (Git.Raise (Git.Exception msg), st1) ->
         Git.clone_or_pull_project action st
         = (Git.Val tt,
            logged st1 (Git.error_pulling_project (Git.path action) msg)))
  /\ (forall st1 msg,
         Git.valid_repo (Git.path action) (Git.world st) = false ->
         type_ (Git.node action) = "project" ->
         Git.clone_step action
           (logged st (Git.debug_cloning_new_project (Git.path action)))
         = (Git.Raise (Git.Exception msg), st1) ->
         Git.clone_or_pull_project action st
         = (Git.Val tt,
            logged st1 (Git.error_cloning_project (Git.path action) msg)))
  /\ (raises_errors_only ->
      exists st', Git.clone_or_pull_project action st = (Git.Val tt, st')).
Proof.
  repeat split.
  - intros st1 Hrepo Hstep.
    rewrite clone_or_pull_project_update by assumption.
    unfold Git.try_except_else. rewrite Hstep. reflexivity.
  - intros st1 Hrepo Hkind Hstep.
    rewrite clone_or_pull_project_clone by assumption.
    unfold Git.try_except_else. rewrite Hstep. reflexivity.
  - intros st1 msg Hrepo Hstep.
    rewrite clone_or_pull_project_update by assumption.
    unfold Git.try_except_else. rewrite Hstep. reflexivity.
  - intros st1 msg Hrepo Hkind Hstep.
    rewrite clone_or_pull_project_clone by assumption.
    unfold Git.try_except_else. rewrite Hstep. reflexivity.
  - apply clone_or_pull_project_returns.
Qed.


(** With the one-worker dispatch no action keeps another from running: the
    dispatch goes through all the actions and returns normally, whatever
    they return or raise. *)
Lemma run_in_order_returns {W : Type} (f : Git.GitAction -> Git.M W unit)
      (actions : list Git.GitAction) :
  forall st, fst (Sim.run_in_order f actions st) = Git.Val tt.
Proof.
  induction actions as [|a actions IH]; intro st; [reflexivity|].
  simpl. apply IH.
Qed.

(** An interrupt that comes while a worktree is added is outside both [try]
    blocks of the action: it leaves [clone_or_pull_project] as it is, after
    the pull, with no fatal line and no exit. *)
Example interrupt_during_worktree_add_escapes :
  fst (@Git.clone_or_pull_project literal_matchers _ Sim.vcs Run.p1_action
                                  (Sim.start Run.interrupted_late))
  = Git.Raise Git.KeyboardInterrupt
  /\ Git.log (snd (@Git.clone_or_pull_project
                     literal_matchers _ Sim.vcs Run.p1_action
                     (Sim.start Run.interrupted_late)))
     = [Git.debug_updating_existing_project "/dest/g/s/p1"].
Proof. split; reflexivity. Qed.

(** Whatever options the user gave, [GitlabTree.sync_tree] hands the pool
    actions without git options, whose clone options are the two flags. *)
Lemma sync_tree_never_passes_git_options
      {M_ : Matchers} {W : Type} {V : Git.Vcs W} {P : Git.Pool}
      (self : GitlabTree) (dest : string) (st st' : Git.State W)
      (acts : list Git.GitAction) :
  Git.get_git_actions (root self) dest (recursive self) (use_fetch self)
                      (hide_token self) st = (Git.Val acts, st') ->
  sync_tree self dest st
  = Git.try_except
      (Git.executor_map (concurrency self) Git.clone_or_pull_project acts)
      (fun e => Git.raise (Git.Exception ("Failed to sync tree: " ++ e))) st'
  /\ Forall (fun a =>
               Git.git_options a = None
               /\ Git.multi_options_of a
                  = (if recursive self then ["--recursive"] else [])
                      ++ (if use_fetch self then ["--mirror"] else [])) acts.
Proof.
  intro H. split.
  - unfold sync_tree, Git.sync_tree, Git.try_except, Git.bind.
    rewrite H. reflexivity.
  - apply get_git_actions_options in H.
    eapply Forall_impl; [|exact H].
    intros a (Ho & Hr & Hf). split; [exact Ho|].
    unfold Git.multi_options_of. rewrite Ho, Hr, Hf.
    destruct (recursive self), (use_fetch self); reflexivity.
Qed.

(** C3 fails on the code. The user of [Run.with_options] asked for the git
    option [--depth=1]; the clones of the two projects are called with an
    empty list of options. An action that carried the options would pass
    them on, split at the commas, after the two flags. *)
Theorem C3_git_options_dropped :
  git_options Run.with_options = Some "--depth=1"
  /\ Git.calls
       (snd (@sync_tree literal_matchers _ Sim.vcs Sim.in_order
                        Run.with_options "/dest" (Sim.start Run.fresh)))
     = [Git.makedirs "/dest/g"; Git.makedirs "/dest/g/s";
        Git.makedirs "/dest/g/s/p1"; Git.makedirs "/dest/g/p2";
        Git.clone_from "git@gitlab.example:g/s/p1.git" "/dest/g/s/p1" [];
        Git.worktree_add "/dest/g/s/p1" "/dest/g/s/p1/../main" "main";
        Git.clone_from "git@gitlab.example:g/p2.git" "/dest/g/p2" []]
  /\ Git.multi_options_of
       (Git.mkGitAction (Git.node Run.p1_action) "/dest/g/s/p1" true true false
                        (Some "--depth=1,--no-tags"))
     = ["--recursive"; "--mirror"; "--depth=1"; "--no-tags"].
Proof. repeat split. Qed.

(* ================================================================== *)
(** * Further properties *)
(* ================================================================== *)

(** ** The filter, over whole trees *)

Section FilterWholeTree.
Context {M : Matchers}.
Variable self : GitlabTree.

Lemma as_judged_is_filter_tree (c : Node) :
  as_judged self c = filter_tree self c.
Proof.
  unfold as_judged. destruct (is_leaf c) eqn:Hl; [|reflexivity].
  now rewrite filter_tree_leaf.
Qed.

Lemma filter_tree_root_path (n : Node) :
  root_path (filter_tree self n) = root_path n.
Proof. destruct n; reflexivity. Qed.

Lemma filter_tree_label (n : Node) : label (filter_tree self n) = label n.
Proof. destruct n; reflexivity. Qed.

Lemma passes_by_root_path (a b : Node) :
  root_path a = root_path b -> passes self a = passes self b.
Proof.
  intro E. unfold passes.
  rewrite !is_included_existsb, !is_excluded_existsb, E. reflexivity.
Qed.

(** A node of a filtered tree is the filtered form of some node. *)
Lemma within_filtered (n m : Node) :
  within n m -> forall t, n = filter_tree self t ->
  exists t0, within t t0 /\ m = filter_tree self t0.
Proof.
  induction 1 as [n | n c m Hin _ IH]; intros t ->.
  - exists t; split; [constructor | reflexivity].
  - rewrite filter_tree_children in Hin. apply in_flat_map in Hin.
    destruct Hin as [c0 [Hc0 Hv]]. apply in_verdict in Hv.
    destruct Hv as [-> _]. rewrite as_judged_is_filter_tree in IH.
    destruct (IH c0 eq_refl) as [t0 [Hw ->]].
    exists t0; split; [|reflexivity].
    now apply within_child with (c := c0).
Qed.

Lemma preorder_unfold (n : Node) :
  preorder n = label n :: flat_map preorder (children n).
Proof.
  destruct n as [nm t u r d p cs]; reflexivity.
Qed.

Lemma sublist_nil_l {A : Type} (l : list A) : sublist [] l.
Proof. induction l; constructor; assumption. Qed.

Lemma sublist_refl {A : Type} (l : list A) : sublist l l.
Proof. induction l; constructor; assumption. Qed.

Lemma sublist_app {A : Type} (a a' b b' : list A) :
  sublist a a' -> sublist b b' -> sublist (a ++ b) (a' ++ b').
Proof.
  induction 1 as [|x l l' _ IH|x l l' _ IH]; intro Hb; simpl.
  - exact Hb.
  - apply sublist_skip. now apply IH.
  - apply sublist_keep. now apply IH.
Qed.

End FilterWholeTree.

Lemma all_below_unfold (f : Node -> bool) (n : Node) :
  all_below f n = forallb (fun c => f c && all_below f c) (children n).
Proof. destruct n; reflexivity. Qed.

(** X1. After [filter_tree], every leaf below the filtered node, at any
    depth, satisfies the keep rule: no leaf that the patterns reject is left
    anywhere in the tree. *)
Theorem X1_filtered_leaves_keep {M : Matchers} (self : GitlabTree)
        (tree parent child : Node)
        (Hparent : within (filter_tree self tree) parent)
        (Hchild : In child (children parent))
        (Hleaf : is_leaf child = true) :
  keep_rule self child.
Proof.
  destruct (within_filtered self _ _ Hparent tree eq_refl) as [t0 [_ ->]].
  rewrite filter_tree_children in Hchild. apply in_flat_map in Hchild.
  destruct Hchild as [c0 [_ Hv]]. apply in_verdict in Hv.
  apply passes_keep_rule. now apply Hv.
Qed.

(** X1, on [Ex.built] filtered with the include pattern [/g/s/p1]: the leaf
    left under subgroup [s]. *)
Lemma X1_filtered_leaves_keep_witness :
  within (@filter_tree literal_matchers
            (Ex.tree_of None ["/g/s/p1"] [] None false) Ex.built)
         (hd Ex.built (children Ex.g_node))
  /\ In (hd Ex.built (children (hd Ex.built (children Ex.g_node))))
        (children (hd Ex.built (children Ex.g_node)))
  /\ is_leaf (hd Ex.built (children (hd Ex.built (children Ex.g_node)))) = true
  /\ @keep_rule literal_matchers (Ex.tree_of None ["/g/s/p1"] [] None false)
       (hd Ex.built (children (hd Ex.built (children Ex.g_node)))).
Proof.
  assert (within (@filter_tree literal_matchers
                    (Ex.tree_of None ["/g/s/p1"] [] None false) Ex.built)
                 (hd Ex.built (children Ex.g_node))) as Hw.
  { eapply within_child; [left; reflexivity|].
    eapply within_child; [left; reflexivity|]. apply within_here. }
  split; [exact Hw|]. split; [left; reflexivity|]. split; [reflexivity|].
  exact (@X1_filtered_leaves_keep
           literal_matchers (Ex.tree_of None ["/g/s/p1"] [] None false)
           Ex.built _ _ Hw (or_introl eq_refl) eq_refl).
Defined.

(** X2. A tree in which every node below the root passes the test of the
    filter is left exactly as it is; in particular a filter without include
    and exclude patterns changes nothing. *)
Theorem X2_filter_keeps_passing_tree {M : Matchers} (self : GitlabTree)
        (tree : Node)
        (Hpass : all_below (passes self) tree = true) :
  filter_tree self tree = tree.
Proof.
  induction tree as [n t u r d p cs IH] using Node_ind_nested.
  rewrite (filter_tree_attributes self), filter_tree_children.
  unfold with_children; simpl. f_equal.
  rewrite all_below_unfold in Hpass. simpl in Hpass.
  induction IH as [|c cs Hc _ IHcs]; [reflexivity|].
  simpl in Hpass. apply andb_true_iff in Hpass. destruct Hpass as [Hc' Hrest].
  apply andb_true_iff in Hc'. destruct Hc' as [Hp Hb].
  simpl. rewrite (IHcs Hrest).
  unfold verdict. rewrite as_judged_is_filter_tree, (Hc Hb), Hp.
  destruct (is_leaf c); reflexivity.
Qed.

(** X2, on [Ex.built] without patterns. *)
Lemma X2_filter_keeps_passing_tree_witness :
  all_below (@passes literal_matchers (Ex.tree_of None [] [] None false))
            Ex.built = true
  /\ @filter_tree literal_matchers (Ex.tree_of None [] [] None false) Ex.built
     = Ex.built.
Proof.
  split; [reflexivity|].
  exact (@X2_filter_keeps_passing_tree
           literal_matchers (Ex.tree_of None [] [] None false) Ex.built eq_refl).
Defined.

(** X3. When every node below the root fails the test of the filter, the
    pruning cascades upwards: each group is emptied, judged as a leaf and
    detached in turn, the root is left without children, and [is_empty]
    answers true. *)
Theorem X3_filter_empties_rejected_tree {M : Matchers} (self : GitlabTree)
        (tree : Node)
        (Hfail : all_below (fun c => negb (passes self c)) tree = true) :
  children (filter_tree self tree) = []
  /\ is_empty (with_root self (filter_tree self tree)) = true.
Proof.
  assert (children (filter_tree self tree) = []) as E.
  { induction tree as [n t u r d p cs IH] using Node_ind_nested.
    rewrite filter_tree_children. simpl.
    rewrite all_below_unfold in Hfail. simpl in Hfail.
    induction IH as [|c cs Hc _ IHcs]; [reflexivity|].
    simpl in Hfail. apply andb_true_iff in Hfail. destruct Hfail as [Hc' Hrest].
    apply andb_true_iff in Hc'. destruct Hc' as [Hp Hb].
    simpl. rewrite (IHcs Hrest), app_nil_r.
    unfold verdict. rewrite as_judged_is_filter_tree.
    unfold is_leaf. rewrite (Hc Hb).
    rewrite (passes_by_root_path self _ c (filter_tree_root_path self c)).
    apply negb_true_iff in Hp. now rewrite Hp. }
  split; [exact E|].
  unfold is_empty, with_root; simpl.
  destruct (filter_tree self tree) as [n t u r d p cs]; simpl in *.
  now rewrite E.
Qed.

(** X3, on [Ex.built] with an include pattern that matches no path. *)
Lemma X3_filter_empties_rejected_tree_witness :
  all_below (fun c => negb (@passes literal_matchers
                              (Ex.tree_of None ["/elsewhere"] [] None false) c))
            Ex.built = true
  /\ children (@filter_tree literal_matchers
                 (Ex.tree_of None ["/elsewhere"] [] None false) Ex.built) = [].
Proof.
  split; [reflexivity|].
  exact (proj1 (@X3_filter_empties_rejected_tree
                  literal_matchers
                  (Ex.tree_of None ["/elsewhere"] [] None false)
                  Ex.built eq_refl)).
Defined.

(** X4. The filter only takes nodes out: the labels (name, type, url and
    root path) of the filtered tree, listed parents first and siblings in
    order, are the labels of the original tree with some left out. No node
    is added, none is altered, and the order of the siblings is kept. *)
Theorem X4_filter_only_removes {M : Matchers} (self : GitlabTree) (tree : Node) :
  sublist (preorder (filter_tree self tree)) (preorder tree).
Proof.
  induction tree as [n t u r d p cs IH] using Node_ind_nested.
  rewrite (preorder_unfold (filter_tree self _)), (preorder_unfold (mkNode _ _ _ _ _ _ _)).
  rewrite filter_tree_label, filter_tree_children. apply sublist_keep.
  simpl children.
  induction IH as [|c cs Hc _ IHcs]; [constructor|].
  simpl. rewrite flat_map_app. apply sublist_app; [|exact IHcs].
  destruct (verdict_cases self c) as [E | E]; rewrite E.
  - apply sublist_nil_l.
  - simpl. rewrite app_nil_r, as_judged_is_filter_tree. exact Hc.
Qed.

(** ** The builder, over whole trees *)

Lemma all_below_within (f : Node -> bool) (t : Node) :
  all_below f t = true <->
  (forall parent child,
      within t parent -> In child (children parent) -> f child = true).
Proof.
  induction t as [n ty u r d p cs IH] using Node_ind_nested.
  rewrite all_below_unfold. simpl children. rewrite forallb_forall. split.
  - intros H parent child Hw. remember (mkNode n ty u r d p cs) as t eqn:Et.
    revert Et. induction Hw as [x | x c m Hin Hw IHw]; intros -> Hc.
    + specialize (H child Hc). now apply andb_true_iff in H.
    + simpl in Hin. specialize (H c Hin). apply andb_true_iff in H.
      rewrite Forall_forall in IH. apply (proj1 (IH c Hin) (proj2 H) m child Hw Hc).
  - intros H c Hc. apply andb_true_iff. split.
    + apply (H (mkNode n ty u r d p cs) c); [constructor | exact Hc].
    + rewrite Forall_forall in IH. apply (IH c Hc).
      intros parent child Hw Hin. apply (H parent child); [|exact Hin].
      now apply within_child with (c := c).
Qed.

Lemma within_inv (n m : Node) :
  within n m ->
  m = n \/ exists parent, within n parent /\ In m (children parent).
Proof.
  induction 1 as [n | n c m Hin Hw IH]; [now left|right].
  destruct IH as [-> | [parent [Hp Hm]]].
  - exists n; split; [constructor | exact Hin].
  - exists parent; split; [|exact Hm]. now apply within_child with (c := c).
Qed.

Section BuilderShape.
Variable self : GitlabTree.
Variable f : Node -> bool.
Hypothesis f_subgroup :
  forall nm pp u cs,
    f (with_children (make_node "subgroup" nm pp u None None) cs) = true.
Hypothesis f_project :
  forall pp pr n, In n (add_project self pp pr) -> f n = true.

Local Abbreviation good := (fun c => f c && all_below f c).

Lemma good_with_children (n : Node) (cs : list Node) :
  f (with_children n cs) = true ->
  forallb good cs = true ->
  good (with_children n cs) = true.
Proof.
  intros Hf Hcs. apply andb_true_iff; split; [exact Hf|].
  now rewrite all_below_unfold.
Qed.

Lemma add_projects_good (pp : list string) (ps : list Project) :
  forallb good (add_projects self pp ps) = true.
Proof.
  apply forallb_forall. intros n Hn. unfold add_projects in Hn.
  apply in_flat_map in Hn. destruct Hn as [pr [_ Hn]].
  apply andb_true_iff; split; [now apply (f_project pp pr)|].
  unfold add_project in Hn.
  match type of Hn with
  | In _ (match ?x with Some _ => _ | None => _ end) => destruct x
  end; [|contradiction].
  destruct Hn as [<- | []]. reflexivity.
Qed.

Lemma get_projects_good (g : Group) (pp : list string) :
  forallb good (fst (get_projects self g pp)) = true.
Proof.
  unfold get_projects.
  destruct (projects g); simpl; try reflexivity.
  destruct (include_shared self); [|apply add_projects_good].
  destruct (shared_projects g) as [[| |]|]; simpl;
    try apply add_projects_good.
  rewrite forallb_app, !add_projects_good. reflexivity.
Qed.

Lemma get_subgroups_good (g : Group) :
  forall pp, forallb good (fst (get_subgroups self g pp)) = true.
Proof.
  induction g as [g Hsub] using Group_ind_nested. intro pp.
  destruct g as [n p w i subgroups projs shared]; simpl in *.
  destruct subgroups as [defs| |]; simpl; try reflexivity.
  induction defs as [|d defs IH]; simpl; [reflexivity|].
  destruct d as [sg| |]; simpl in Hsub; try (now apply IH); [|reflexivity].
  inversion Hsub as [|? ? Hsg Hrest]; subst.
  specialize (IH Hrest).
  match goal with
  | |- context [get_subgroups self sg ?path] =>
      specialize (Hsg path); destruct (get_subgroups self sg path) as [subs raised]
  end.
  simpl in Hsg.
  destruct raised; simpl.
  { rewrite andb_true_r. apply good_with_children; [apply f_subgroup | exact Hsg]. }
  match goal with
  | |- context [get_projects self sg ?path] =>
      pose proof (get_projects_good sg path) as Hp;
      destruct (get_projects self sg path) as [projs' raised']
  end.
  simpl in Hp.
  assert (forallb good (subs ++ projs') = true) as Hall
      by (rewrite forallb_app, Hsg, Hp; reflexivity).
  destruct raised'; simpl.
  { rewrite andb_true_r. apply good_with_children; [apply f_subgroup | exact Hall]. }
  match goal with
  | |- context [match ?t with pair _ _ => _ end] => destruct t as [more r'']
  end.
  simpl in *. apply andb_true_iff; split; [|exact IH].
  apply good_with_children; [apply f_subgroup | exact Hall].
Qed.

Lemma load_group_below (g : Group) (rp : list string) :
  forallb (all_below f) (load_group self rp g) = true.
Proof.
  unfold load_group. destruct (parent_id g); [reflexivity|].
  match goal with
  | |- context [get_subgroups self g ?path] =>
      pose proof (get_subgroups_good g path) as Hs;
      destruct (get_subgroups self g path) as [subs raised]
  end.
  simpl in Hs.
  destruct raised; cbn [forallb].
  { rewrite andb_true_r, all_below_unfold. exact Hs. }
  match goal with
  | |- context [get_projects self g ?path] =>
      pose proof (get_projects_good g path) as Hp;
      destruct (get_projects self g path) as [projs raised']
  end.
  simpl in Hp. cbn [forallb]. rewrite andb_true_r, all_below_unfold.
  unfold with_children; cbn [children].
  rewrite forallb_app, Hs, Hp. reflexivity.
Qed.

End BuilderShape.

Lemma made_below_subgroup (track : bool) (nm : string) (pp : list string)
      (u : string) (cs : list Node) :
  made_below track (with_children (make_node "subgroup" nm pp u None None) cs)
  = true.
Proof. reflexivity. Qed.

Lemma made_below_project (self : GitlabTree) (pp : list string) (pr : Project)
      (n : Node) :
  In n (add_project self pp pr) ->
  made_below (track_protected_branches self) n = true.
Proof.
  unfold add_project.
  destruct (track_protected_branches self) eqn:Ht.
  - destruct (protectedbranches pr) as [names|code|].
    + intros [<- | []]. unfold made_below, make_node; simpl.
      destruct names; reflexivity.
    + destruct (Z.eqb code 403); [|contradiction].
      intros [<- | []]. reflexivity.
    + contradiction.
  - intros [<- | []]. reflexivity.
Qed.

(** What [load_group] returns: nothing for a group that has a parent, and
    for a top-level group its node, whatever was raised below it. *)
Lemma load_group_node (self : GitlabTree) (rp : list string) (g : Group) :
  match parent_id g with
  | Some _ => load_group self rp g = []
  | None =>
      exists cs,
      load_group self rp g
      = [with_children
           (make_node "group" (folder_of_group self g) rp (web_url g) None None)
           cs]
  end.
Proof.
  unfold load_group, folder_of_group. destruct (parent_id g); [reflexivity|].
  match goal with
  | |- context [get_subgroups self g ?path] =>
      destruct (get_subgroups self g path) as [subs raised]
  end.
  destruct raised; [eauto|].
  match goal with
  | |- context [get_projects self g ?path] =>
      destruct (get_projects self g path) as [projs raised']
  end.
  eauto.
Qed.

(** The children of the root after either loader, for the root of
    [__init__]: groups, and below them nodes as [made_below] describes. *)
Lemma built_top_level (self : GitlabTree) (groups : Listing Group)
      (user : UserAnswer) (built : Node) :
  root self = initial_root (self_url self) ->
  built = load_gitlab_tree self groups \/ built = load_user_tree self user ->
  Forall (fun g => type_ g = "group"
                   /\ default_branch g = None
                   /\ protected_branches g = None
                   /\ all_below (made_below (track_protected_branches self)) g
                      = true)
         (children built).
Proof.
  intros Hroot [-> | ->].
  - unfold load_gitlab_tree. rewrite Hroot.
    destruct groups as [gs| |]; try constructor.
    simpl. apply Forall_flat_map, Forall_forall. intros g _.
    pose proof (load_group_node self [""] g) as Hn.
    pose proof (load_group_below
                  self (made_below (track_protected_branches self))
                  (made_below_subgroup (track_protected_branches self))
                  (made_below_project self) g [""]) as Hb.
    destruct (parent_id g).
    + rewrite Hn. constructor.
    + destruct Hn as [cs Hn]. rewrite Hn in *.
      constructor; [|constructor]. simpl in Hb. rewrite andb_true_r in Hb.
      repeat split; try reflexivity. exact Hb.
  - unfold load_user_tree. rewrite Hroot.
    destruct user as [[username ps]|]; try constructor; [|constructor].
    repeat split; try reflexivity.
    rewrite all_below_unfold. unfold with_children; cbn [children].
    apply add_projects_good. apply made_below_project.
Qed.

Lemma top_level_names (self : GitlabTree) (gs : list Group) :
  root self = initial_root (self_url self) ->
  map name (children (load_gitlab_tree self (Listed gs)))
  = map (folder_of_group self)
        (filter (fun g => match parent_id g with None => true | Some _ => false end)
                gs).
Proof.
  intro Hroot. unfold load_gitlab_tree. rewrite Hroot. simpl.
  induction gs as [|g gs IH]; [reflexivity|].
  simpl. rewrite map_app, IH.
  pose proof (load_group_node self [""] g) as Hn.
  destruct (parent_id g).
  - now rewrite Hn.
  - destruct Hn as [cs ->]. reflexivity.
Qed.

(** X5. Every top-level group the server lists gets its node under the root,
    in the order of the listing and under its folder name, whatever fails
    while its subgroups and projects are read; groups that have a parent get
    no node there. *)
Theorem X5_every_top_level_group_has_a_node
        (self : GitlabTree) (gs : list Group)
        (Hroot : root self = initial_root (self_url self)) :
  map name (children (load_gitlab_tree self (Listed gs)))
  = map (folder_of_group self)
        (filter (fun g => match parent_id g with None => true | Some _ => false end)
                gs).
Proof. now apply top_level_names. Qed.

(** X5, on the remote of [Ex], whose listing shows group [g] and its
    subgroup [s]. *)
Lemma X5_every_top_level_group_has_a_node_witness :
  root (Ex.tree_of (Some PATH) [] [] None false)
  = initial_root (self_url (Ex.tree_of (Some PATH) [] [] None false))
  /\ map name (children (load_gitlab_tree
                           (Ex.tree_of (Some PATH) [] [] None false)
                           (Listed [Ex.g; Ex.s])))
     = ["g"].
Proof.
  split; [reflexivity|].
  exact (X5_every_top_level_group_has_a_node
           (Ex.tree_of (Some PATH) [] [] None false) [Ex.g; Ex.s] eq_refl).
Defined.

(** X6. In a tree made by the builder the nodes under the root are groups,
    every node below a group is a subgroup or a project, and a project never
    has children: a leaf that is not a project is an empty group or
    subgroup. *)
Theorem X6_built_tree_kinds
        (self : GitlabTree) (groups : Listing Group) (user : UserAnswer)
        (built : Node)
        (Hroot : root self = initial_root (self_url self))
        (Hbuilt : built = load_gitlab_tree self groups
                  \/ built = load_user_tree self user) :
  (forall g, In g (children built) -> type_ g = "group")
  /\ (forall g parent child,
         In g (children built) -> within g parent ->
         In child (children parent) ->
         type_ child = "subgroup" \/ type_ child = "project")
  /\ (forall g n,
         In g (children built) -> within g n ->
         type_ n = "project" -> children n = []).
Proof.
  pose proof (built_top_level self groups user built Hroot Hbuilt) as H.
  rewrite Forall_forall in H.
  assert (forall g parent child,
             In g (children built) -> within g parent ->
             In child (children parent) ->
             made_below (track_protected_branches self) child = true) as Hbelow.
  { intros g parent child Hg Hw Hc.
    destruct (H g Hg) as (_ & _ & _ & Hall).
    exact (proj1 (all_below_within _ g) Hall parent child Hw Hc). }
  split; [|split].
  - intros g Hg. apply (H g Hg).
  - intros g parent child Hg Hw Hc.
    specialize (Hbelow g parent child Hg Hw Hc).
    unfold made_below in Hbelow.
    destruct (String.eqb_spec (type_ child) "project") as [E | _]; [now right|].
    left. apply andb_true_iff in Hbelow. destruct Hbelow as [Hk _].
    apply andb_true_iff in Hk. destruct Hk as [Hk _].
    apply andb_true_iff in Hk. destruct Hk as [Hk _].
    now apply String.eqb_eq.
  - intros g n Hg Hw Hp.
    destruct (within_inv _ _ Hw) as [-> | [parent [Hwp Hc]]].
    + destruct (H g Hg) as (Hk & _). rewrite Hk in Hp. discriminate.
    + specialize (Hbelow g parent n Hg Hwp Hc).
      unfold made_below in Hbelow. rewrite Hp in Hbelow. simpl in Hbelow.
      apply andb_true_iff in Hbelow. destruct Hbelow as [Hl _].
      unfold is_leaf in Hl. destruct (children n); [reflexivity | discriminate].
Qed.

(** X6, on [Ex.built]: project [p2] under group [g]. *)
Lemma X6_built_tree_kinds_witness :
  root (Ex.tree_of (Some PATH) [] [] None false)
  = initial_root (self_url (Ex.tree_of (Some PATH) [] [] None false))
  /\ type_ Ex.g_node = "group"
  /\ (type_ Ex.p2_node = "subgroup" \/ type_ Ex.p2_node = "project").
Proof.
  split; [reflexivity|].
  destruct (X6_built_tree_kinds
              (Ex.tree_of (Some PATH) [] [] None false) Ex.remote None Ex.built
              eq_refl (or_introl eq_refl)) as (Hg & Hb & _).
  split.
  - exact (Hg Ex.g_node (or_introl eq_refl)).
  - exact (Hb Ex.g_node Ex.g_node Ex.p2_node (or_introl eq_refl)
              (within_here _) (or_intror (or_introl eq_refl))).
Defined.

(** X7. In a tree made by the builder, only projects carry protected
    branches or a default branch; a node carries protected branches only
    when [self] tracks them, and the list it carries is never empty. *)
Theorem X7_built_tree_attributes
        (self : GitlabTree) (groups : Listing Group) (user : UserAnswer)
        (built g n : Node)
        (Hroot : root self = initial_root (self_url self))
        (Hbuilt : built = load_gitlab_tree self groups
                  \/ built = load_user_tree self user)
        (Hg : In g (children built))
        (Hn : within g n) :
  (forall l, protected_branches n = Some l ->
             l <> [] /\ track_protected_branches self = true
             /\ type_ n = "project")
  /\ (default_branch n <> None -> type_ n = "project").
Proof.
  pose proof (built_top_level self groups user built Hroot Hbuilt) as H.
  rewrite Forall_forall in H. destruct (H g Hg) as (Hk & Hd & Hp & Hall).
  destruct (within_inv _ _ Hn) as [-> | [parent [Hwp Hc]]].
  - split; [intros l E; congruence | intro E; congruence].
  - pose proof (proj1 (all_below_within _ g) Hall parent n Hwp Hc) as Hm.
    unfold made_below in Hm.
    apply andb_true_iff in Hm. destruct Hm as [Hkind Hprot].
    split.
    + intros l E. rewrite E in *.
      destruct l as [|x l]; [discriminate|].
      split; [discriminate|]. split; [exact Hprot|].
      destruct (String.eqb_spec (type_ n) "project") as [Et | _]; [exact Et|].
      rewrite andb_false_r in Hkind. discriminate.
    + intro E.
      destruct (String.eqb_spec (type_ n) "project") as [Et | _]; [exact Et|].
      destruct (default_branch n); [|now contradiction E].
      rewrite andb_false_r in Hkind. simpl in Hkind. discriminate.
Qed.

(** X7, on [Ex.built_protected]: project [p1] with its protected branch. *)
Lemma X7_built_tree_attributes_witness :
  root (Ex.tree_of (Some PATH) [] [] None true)
  = initial_root (self_url (Ex.tree_of (Some PATH) [] [] None true))
  /\ In (hd Ex.built (children Ex.built_protected))
        (children Ex.built_protected)
  /\ within (hd Ex.built (children Ex.built_protected)) (Git.node Run.p1_action)
  /\ protected_branches (Git.node Run.p1_action) = Some ["main"]
  /\ type_ (Git.node Run.p1_action) = "project".
Proof.
  assert (within (hd Ex.built (children Ex.built_protected))
                 (Git.node Run.p1_action)) as Hw.
  { eapply within_child; [left; reflexivity|].
    eapply within_child; [left; reflexivity|]. apply within_here. }
  split; [reflexivity|]. split; [left; reflexivity|]. split; [exact Hw|].
  split; [reflexivity|].
  exact (proj2 (proj2
           (proj1 (X7_built_tree_attributes
                     (Ex.tree_of (Some PATH) [] [] None true) Ex.remote None
                     Ex.built_protected _ _ eq_refl (or_introl eq_refl)
                     (or_introl eq_refl) Hw)
                  ["main"] eq_refl))).
Defined.

Lemma get_projects_calm (self : GitlabTree) (g : Group) (pp : list string) :
  only_gitlab_errors g = true -> snd (get_projects self g pp) = false.
Proof.
  destruct g as [n p w i subgroups projs shared]; simpl.
  intro H. apply andb_true_iff in H. destruct H as [H Hshared].
  apply andb_true_iff in H. destruct H as [_ Hprojs].
  unfold get_projects; simpl.
  destruct projs; try reflexivity; [|discriminate].
  destruct (include_shared self); [|reflexivity].
  destruct shared as [[| |]|]; try reflexivity. discriminate.
Qed.

Lemma get_subgroups_calm (self : GitlabTree) (g : Group) :
  forall pp,
    only_gitlab_errors g = true ->
    snd (get_subgroups self g pp) = false
    /\ map name (fst (get_subgroups self g pp))
       = map (folder_of_group self) (subgroups_of g).
Proof.
  induction g as [g Hsub] using Group_ind_nested. intros pp Hcalm.
  destruct g as [n p w i subgroups projs shared]; simpl in *.
  apply andb_true_iff in Hcalm. destruct Hcalm as [Hcalm _].
  apply andb_true_iff in Hcalm. destruct Hcalm as [Hdefs _].
  destruct subgroups as [defs| |]; simpl; [|now split|discriminate].
  induction defs as [|d defs IH]; simpl; [now split|].
  destruct d as [sg| |]; simpl in Hsub; [| now apply IH | discriminate].
  apply andb_true_iff in Hdefs. destruct Hdefs as [Hsg_calm Hrest_calm].
  inversion Hsub as [|? ? Hsg Hrest]; subst.
  specialize (IH Hrest Hrest_calm).
  pose proof (get_projects_calm self sg) as Hp.
  match goal with
  | |- context [get_subgroups self sg ?path] =>
      specialize (Hsg path Hsg_calm); specialize (Hp path Hsg_calm);
      destruct (get_subgroups self sg path) as [subs raised];
      destruct (get_projects self sg path) as [projs' raised']
  end.
  simpl in Hsg, Hp. destruct Hsg as [-> _]. subst raised'.
  match goal with
  | |- context [match ?t with pair _ _ => _ end] => destruct t as [more r'']
  end.
  simpl in *. destruct IH as [-> ->]. split; reflexivity.
Qed.

(** X8. A [GitlabListError] or a [GitlabGetError], wherever it is raised
    below a group, never stops the walk over the subgroups: when nothing
    else is raised, no exception leaves [get_subgroups] and [get_projects],
    and every subgroup that could be fetched has its node, in order, under
    its folder name. *)
Theorem X8_gitlab_errors_are_isolated
        (self : GitlabTree) (g : Group) (parent_path : list string)
        (Hcalm : only_gitlab_errors g = true) :
  snd (get_subgroups self g parent_path) = false
  /\ snd (get_projects self g parent_path) = false
  /\ map name (fst (get_subgroups self g parent_path))
     = map (folder_of_group self) (subgroups_of g).
Proof.
  destruct (get_subgroups_calm self g parent_path Hcalm) as [H1 H2].
  split; [exact H1|]. split; [|exact H2].
  now apply get_projects_calm.
Qed.

(** X8, for a group whose project listing and one of whose subgroups fail
    with GitLab errors. *)
Lemma X8_gitlab_errors_are_isolated_witness :
  only_gitlab_errors
    (mkGroup "G" "g" "https://gitlab.example/g" None
             (Listed [RaisesGitlabGetError 404; Got Ex.s])
             (RaisesGitlabListError 500) None) = true
  /\ map name
         (fst (get_subgroups
                 (Ex.tree_of (Some PATH) [] [] None false)
                 (mkGroup "G" "g" "https://gitlab.example/g" None
                          (Listed [RaisesGitlabGetError 404; Got Ex.s])
                          (RaisesGitlabListError 500) None)
                 [""; "g"]))
     = ["s"].
Proof.
  split; [reflexivity|].
  exact (proj2 (proj2
           (X8_gitlab_errors_are_isolated
              (Ex.tree_of (Some PATH) [] [] None false)
              (mkGroup "G" "g" "https://gitlab.example/g" None
                       (Listed [RaisesGitlabGetError 404; Got Ex.s])
                       (RaisesGitlabListError 500) None)
              [""; "g"] eq_refl))).
Defined.

Lemma slash_below (self : GitlabTree) (n m : Node) :
  within n m ->
  forall anc,
    chain_ok (names_by_branch self) anc n ->
    (root_path n = "" \/ exists rest, root_path n = String "/" rest) ->
    (root_path m = "" \/ exists rest, root_path m = String "/" rest)
    /\ exists anc', chain_ok (names_by_branch self) anc' m.
Proof.
  induction 1 as [n | n c m Hin _ IH]; intros anc Hn Hq; [eauto|].
  destruct (chain_ok_edge self anc n c Hn Hin) as [Hrule _].
  apply (IH (anc ++ [name n])).
  - apply chain_ok_unfold in Hn. destruct Hn as (_ & _ & _ & Hcs).
    rewrite Forall_forall in Hcs. now apply Hcs.
  - right. unfold path_rule in Hrule. rewrite Hrule.
    destruct Hq as [-> | [rest ->]]; simpl; eauto.
Qed.

(** X9. In a tree made by the builder the [root_path] of every node below
    the root starts with a slash, so that the destination [dest + root_path]
    of a sync lies under [dest/]. *)
Theorem X9_built_paths_start_with_slash
        (self : GitlabTree) (groups : Listing Group) (user : UserAnswer)
        (built parent child : Node)
        (Hroot : root self = initial_root (self_url self))
        (Hbuilt : built = load_gitlab_tree self groups
                  \/ built = load_user_tree self user)
        (Hparent : within built parent)
        (Hchild : In child (children parent)) :
  exists rest,
    root_path child = String "/" rest
    /\ forall dest : string,
        (dest ++ root_path child)%string = ((dest ++ "/") ++ rest)%string.
Proof.
  assert (chain_ok (names_by_branch self) [] (root self)) as Hr
      by (rewrite Hroot; simpl; repeat split; congruence).
  assert (default_branch (root self) = None) as Hd by now rewrite Hroot.
  assert (chain_ok (names_by_branch self) [] built
          /\ root_path built = "") as [Hb Hp].
  { destruct Hbuilt as [-> | ->].
    - split; [now apply load_gitlab_tree_ok|].
      unfold load_gitlab_tree. destruct groups; simpl; now rewrite Hroot.
    - split; [now apply load_user_tree_ok|].
      unfold load_user_tree. destruct user as [[? ?]|]; simpl; now rewrite Hroot. }
  destruct (slash_below self built parent Hparent [] Hb (or_introl Hp))
    as [Hq [anc Hc]].
  destruct (chain_ok_edge self anc parent child Hc Hchild) as [Hrule _].
  unfold path_rule in Hrule.
  assert (exists rest, root_path child = String "/" rest) as [rest E]
      by (rewrite Hrule; destruct Hq as [-> | [rest ->]]; simpl; eauto).
  exists rest. split; [exact E|].
  intro dest. rewrite E, append_assoc. reflexivity.
Qed.

(** X9, on [Ex.built_by_branch]: project [p1] under subgroup [s]. *)
Lemma X9_built_paths_start_with_slash_witness :
  root (Ex.tree_of (Some BRANCH) [] [] None false)
  = initial_root (self_url (Ex.tree_of (Some BRANCH) [] [] None false))
  /\ within Ex.built_by_branch Ex.s_node_by_branch
  /\ In Ex.p1_node_by_branch (children Ex.s_node_by_branch)
  /\ exists rest, root_path Ex.p1_node_by_branch = String "/" rest.
Proof.
  assert (within Ex.built_by_branch Ex.s_node_by_branch) as Hw.
  { eapply within_child; [left; reflexivity|].
    eapply within_child; [left; reflexivity|]. apply within_here. }
  split; [reflexivity|]. split; [exact Hw|]. split; [left; reflexivity|].
  destruct (X9_built_paths_start_with_slash
              (Ex.tree_of (Some BRANCH) [] [] None false) Ex.remote None
              Ex.built_by_branch Ex.s_node_by_branch Ex.p1_node_by_branch
              eq_refl (or_introl eq_refl) Hw (or_introl eq_refl))
    as [rest [E _]].
  exists rest. exact E.
Defined.

(** ** The derivation of the actions *)

Section ActionsProperties.
Context {M_ : Matchers} {W : Type} {V : Git.Vcs W}.
Variables (dest : string) (r f h : bool).

Lemma after_makedirs_refl (st : Git.State W) : after_makedirs st st.
Proof.
  split; [|reflexivity]. exists []. split; [now rewrite app_nil_r | constructor].
Qed.

Lemma after_makedirs_trans (a b c : Git.State W) :
  after_makedirs a b -> after_makedirs b c -> after_makedirs a c.
Proof.
  intros [[n1 [E1 F1]] L1] [[n2 [E2 F2]] L2]. split; [|congruence].
  exists (n1 ++ n2). split; [now rewrite E2, E1, app_assoc|].
  apply Forall_app; split; assumption.
Qed.

Lemma leaves_below_unfold (n : Node) :
  leaves_below n
  = flat_map (fun c => if is_leaf c then [c] else leaves_below c) (children n).
Proof. destruct n; reflexivity. Qed.

(** The step that makes the directory of one child when it is missing. *)
Lemma ensure_directory (path : string) (st : Git.State W) :
  after_makedirs
    st (snd ((if negb (Git.os_path_exists path (Git.world st))
              then Git.call (Git.makedirs path) else Git.ret tt) st))
  /\ (makedirs_succeeds ->
      fst ((if negb (Git.os_path_exists path (Git.world st))
            then Git.call (Git.makedirs path) else Git.ret tt) st) = Git.Val tt)
  /\ (Git.os_path_exists path (Git.world st) = true ->
      (if negb (Git.os_path_exists path (Git.world st))
       then Git.call (Git.makedirs path) else Git.ret tt) st = (Git.Val tt, st)).
Proof.
  destruct (Git.os_path_exists path (Git.world st)); simpl.
  - split; [apply after_makedirs_refl|]. split; [reflexivity|reflexivity].
  - unfold Git.call.
    destruct (Git.perform (Git.makedirs path) (Git.world st)) as [answer w] eqn:E.
    assert (after_makedirs st (Git.mkState w (Git.calls st ++ [Git.makedirs path])
                                           (Git.log st))) as Hafter.
    { split; [|reflexivity]. exists [Git.makedirs path].
      split; [reflexivity|]. constructor; [eauto | constructor]. }
    split; [destruct answer; exact Hafter|].
    split; [|discriminate].
    intro Hmk. specialize (Hmk path (Git.world st)). rewrite E in Hmk.
    simpl in Hmk. subst answer. reflexivity.
Qed.

Lemma get_git_actions_run (root : Node) :
  forall st,
    after_makedirs st (snd (Git.get_git_actions root dest r f h st))
    /\ (forall acts,
           fst (Git.get_git_actions root dest r f h st) = Git.Val acts ->
           acts = actions_for dest r f h (leaves_below root))
    /\ (makedirs_succeeds ->
        exists acts,
          fst (Git.get_git_actions root dest r f h st) = Git.Val acts).
Proof.
  induction root as [n t u rp d p cs IH] using Node_ind_nested.
  rewrite leaves_below_unfold. cbn [Git.get_git_actions children].
  match goal with
  | |- forall st, after_makedirs st (snd (?F cs _ st)) /\ _ => set (loop := F)
  end.
  assert (forall actions st,
             after_makedirs st (snd (loop cs actions st))
             /\ (forall acts,
                    fst (loop cs actions st) = Git.Val acts ->
                    acts = actions
                             ++ actions_for dest r f h
                                  (flat_map (fun c => if is_leaf c then [c]
                                                      else leaves_below c) cs))
             /\ (makedirs_succeeds ->
                 exists acts, fst (loop cs actions st) = Git.Val acts)) as Hloop.
  { induction IH as [|c cs Hc _ IHcs]; intros actions st.
    - unfold loop. simpl. split; [apply after_makedirs_refl|].
      split; [|eauto]. intros acts E.
      assert (acts = actions) as -> by congruence.
      unfold actions_for. simpl. now rewrite app_nil_r.
    - assert (loop (c :: cs) actions st
              = match (if negb (Git.os_path_exists (dest ++ root_path c)
                                                   (Git.world st))
                       then Git.call (Git.makedirs (dest ++ root_path c))
                       else Git.ret tt) st with
                | (Git.Val _, st1) =>
                    if is_leaf c
                    then loop cs (actions
                                    ++ [Git.GitAction_5 c (dest ++ root_path c)
                                                        r f h]) st1
                    else match Git.get_git_actions c dest r f h st1 with
                         | (Git.Val more, st2) => loop cs (actions ++ more) st2
                         | (Git.Raise e, st2) => (Git.Raise e, st2)
                         end
                | (Git.Raise e, st1) => (Git.Raise e, st1)
                end) as Hrun.
      { unfold loop.
        cbn -[Git.bind Git.ask Git.call Git.ret Git.get_git_actions is_leaf negb
              app].
        fold loop. unfold Git.bind, Git.ask.
        destruct ((if negb (Git.os_path_exists (dest ++ root_path c)
                                               (Git.world st))
                   then Git.call (Git.makedirs (dest ++ root_path c))
                   else Git.ret tt) st) as [[[]|e] st1]; [|reflexivity].
        destruct (is_leaf c); reflexivity. }
      rewrite Hrun. clear Hrun.
      destruct (ensure_directory (dest ++ root_path c) st) as (Ha & Hv & _).
      destruct ((if negb (Git.os_path_exists (dest ++ root_path c) (Git.world st))
                 then Git.call (Git.makedirs (dest ++ root_path c))
                 else Git.ret tt) st) as [[[]|e] st1]; simpl in Ha, Hv.
      2:{ split; [exact Ha|]. split; [intros ? E; discriminate E|].
          intro Hmk. specialize (Hv Hmk). discriminate Hv. }
      cbn [flat_map].
      destruct (is_leaf c) eqn:Hl.
      + destruct (IHcs (actions ++ [Git.GitAction_5 c (dest ++ root_path c) r f h])
                       st1) as (Ha' & Hacts & Htot).
        split; [eapply after_makedirs_trans; eassumption|].
        split; [|exact Htot].
        intros acts E. rewrite (Hacts acts E).
        unfold actions_for. rewrite map_app, <- app_assoc. reflexivity.
      + destruct (Hc st1) as (Hac & Hmore & Htotc).
        destruct (Git.get_git_actions c dest r f h st1) as [[more|e] st2];
          simpl in Hac, Hmore, Htotc.
        * destruct (IHcs (actions ++ more) st2) as (Ha' & Hacts & Htot).
          split; [eapply after_makedirs_trans;
                  [exact Ha | eapply after_makedirs_trans; eassumption]|].
          split; [|exact Htot].
          intros acts E. rewrite (Hacts acts E), (Hmore more eq_refl).
          unfold actions_for. rewrite map_app, <- app_assoc. reflexivity.
        * split; [eapply after_makedirs_trans; eassumption|].
          split; [intros ? E; discriminate E|].
          intro Hmk. destruct (Htotc Hmk) as [acts E]. discriminate E. }
  intro st. destruct (Hloop [] st) as (Ha & Hacts & Htot).
  split; [exact Ha|]. split; [|exact Htot].
  intros acts E. exact (Hacts acts E).
Qed.

Lemma get_git_actions_idle (root : Node) :
  forall st,
    all_below (fun n => Git.os_path_exists (dest ++ root_path n) (Git.world st))
              root = true ->
    Git.get_git_actions root dest r f h st
    = (Git.Val (actions_for dest r f h (leaves_below root)), st).
Proof.
  induction root as [n t u rp d p cs IH] using Node_ind_nested.
  intros st Hall. rewrite all_below_unfold in Hall.
  rewrite leaves_below_unfold. cbn [Git.get_git_actions children] in *.
  match goal with
  | |- ?F cs _ st = _ => set (loop := F)
  end.
  assert (forall actions,
             loop cs actions st
             = (Git.Val (actions
                           ++ actions_for dest r f h
                                (flat_map (fun c => if is_leaf c then [c]
                                                    else leaves_below c) cs)),
                st)) as Hloop.
  { induction IH as [|c cs Hc _ IHcs]; intro actions.
    - unfold loop, actions_for. simpl. now rewrite app_nil_r.
    - cbn [forallb] in Hall. apply andb_true_iff in Hall.
      destruct Hall as [Hc' Hrest]. apply andb_true_iff in Hc'.
      destruct Hc' as [Hex Hbelow].
      destruct (ensure_directory (dest ++ root_path c) st) as (_ & _ & Hidle).
      specialize (Hidle Hex).
      unfold loop.
      cbn -[Git.bind Git.ask Git.call Git.ret Git.get_git_actions is_leaf negb
            app flat_map].
      fold loop. unfold Git.bind, Git.ask. rewrite Hidle.
      cbn [flat_map]. unfold actions_for. rewrite map_app.
      destruct (is_leaf c); cbn [negb].
      + rewrite (IHcs Hrest). unfold actions_for.
        now rewrite <- app_assoc.
      + rewrite (Hc st Hbelow), (IHcs Hrest). unfold actions_for.
        now rewrite <- app_assoc. }
  apply (Hloop []).
Qed.

End ActionsProperties.

(** X10. The actions derived for a tree are, in order, one action for each
    leaf below the root, each with the path [dest + root_path] of its leaf,
    the three flags given, and no git options; a root without children gives
    no action. *)
Theorem X10_one_action_per_leaf {W : Type} {V : Git.Vcs W}
        (root : Node) (dest : string) (r f h : bool)
        (st st' : Git.State W) (acts : list Git.GitAction)
        (Hrun : Git.get_git_actions root dest r f h st = (Git.Val acts, st')) :
  acts = actions_for dest r f h (leaves_below root)
  /\ map Git.node acts = leaves_below root
  /\ (children root = [] -> acts = []).
Proof.
  destruct (get_git_actions_run dest r f h root st) as (_ & Hacts & _).
  rewrite Hrun in Hacts. specialize (Hacts acts eq_refl). subst acts.
  split; [reflexivity|]. split.
  - unfold actions_for. rewrite map_map. simpl. apply map_id.
  - intro E. rewrite leaves_below_unfold, E. reflexivity.
Qed.

(** X10, on the tree of [Run.with_options] in the fresh world: the actions
    are those of projects [p1] and [p2]. *)
Lemma X10_one_action_per_leaf_witness :
  @Git.get_git_actions _ Sim.vcs (root Run.with_options) "/dest"
                       false false false (Sim.start Run.fresh)
  = (Git.Val (actions_for "/dest" false false false
                          (leaves_below (root Run.with_options))),
     snd (@Git.get_git_actions _ Sim.vcs (root Run.with_options) "/dest"
                               false false false (Sim.start Run.fresh)))
  /\ map (fun n => name n) (leaves_below (root Run.with_options)) = ["p1"; "p2"]
  /\ map Git.path
         (actions_for "/dest" false false false
                      (leaves_below (root Run.with_options)))
     = ["/dest/g/s/p1"; "/dest/g/p2"]
  /\ map Git.node
         (actions_for "/dest" false false false
                      (leaves_below (root Run.with_options)))
     = leaves_below (root Run.with_options).
Proof.
  split; [reflexivity|]. split; [reflexivity|]. split; [reflexivity|].
  exact (proj1 (proj2
           (@X10_one_action_per_leaf
              _ Sim.vcs (root Run.with_options) "/dest"
              false false false (Sim.start Run.fresh) _ _ eq_refl))).
Defined.

(** X11. The derivation of the actions touches nothing but directories: the
    only calls it makes are calls of [os.makedirs], it writes no log line,
    and it issues no git command. When [os.makedirs] never raises it always
    returns its list of actions; when every directory already exists it
    makes no call at all and leaves the world as it found it. *)
Theorem X11_derivation_only_makes_directories
        {W : Type} {V : Git.Vcs W}
        (root : Node) (dest : string) (r f h : bool) (st : Git.State W) :
  after_makedirs st (snd (Git.get_git_actions root dest r f h st))
  /\ (makedirs_succeeds ->
      exists st',
        Git.get_git_actions root dest r f h st
        = (Git.Val (actions_for dest r f h (leaves_below root)), st'))
  /\ (all_below (fun n => Git.os_path_exists (dest ++ root_path n) (Git.world st))
                root = true ->
      Git.get_git_actions root dest r f h st
      = (Git.Val (actions_for dest r f h (leaves_below root)), st)).
Proof.
  destruct (get_git_actions_run dest r f h root st) as (Ha & Hacts & Htot).
  split; [exact Ha|]. split; [|apply get_git_actions_idle].
  intro Hmk. destruct (Htot Hmk) as [acts E].
  destruct (Git.get_git_actions root dest r f h st) as [res st'].
  simpl in E, Hacts. subst res. rewrite (Hacts acts eq_refl). eauto.
Qed.

(** X11, in the small world, where [os.makedirs] never raises when nothing
    is told to raise, and on [Ex.built] once its directories exist. *)
Lemma X11_derivation_only_makes_directories_witness :
  all_below (fun n => @Git.os_path_exists _ Sim.vcs ("/dest" ++ root_path n)
                        (Sim.mkWorld ["/dest/g"; "/dest/g/s"; "/dest/g/s/p1";
                                      "/dest/g/p2"] [] [] "main"
                                     Sim.nothing_raises))
            Ex.built = true
  /\ Git.calls
       (snd (@Git.get_git_actions
               _ Sim.vcs Ex.built "/dest" false false false
               (Sim.start (Sim.mkWorld ["/dest/g"; "/dest/g/s"; "/dest/g/s/p1";
                                        "/dest/g/p2"] [] [] "main"
                                       Sim.nothing_raises)))) = [].
Proof.
  split; [reflexivity|].
  rewrite (proj2 (proj2 (@X11_derivation_only_makes_directories
                           _ Sim.vcs Ex.built "/dest"
                           false false false
                           (Sim.start (Sim.mkWorld
                                         ["/dest/g"; "/dest/g/s"; "/dest/g/s/p1";
                                          "/dest/g/p2"] [] [] "main"
                                         Sim.nothing_raises))))
                 eq_refl).
  reflexivity.
Defined.

(** ** Patterns and options *)

(** X12. The branches [list_branches_matching_patterns] returns depend on
    which patterns are given, not on their order or on how often one is
    repeated: a branch that several patterns match is listed once. Without
    patterns no branch is returned, and there are never more branches than
    references. *)
Theorem X12_branches_depend_on_pattern_set
        {M_ : Matchers} {W : Type} {V : Git.Vcs W}
        (repo : string) (patterns patterns' : list string) (st : Git.State W)
        (Hsame : forall p, In p patterns <-> In p patterns') :
  Git.list_branches_matching_patterns repo patterns st
  = Git.list_branches_matching_patterns repo patterns' st
  /\ Git.list_branches_matching_patterns repo [] st = (Git.Val [], st)
  /\ (forall branches st',
         Git.list_branches_matching_patterns repo patterns st
         = (Git.Val branches, st') ->
         length branches <= length (Git.references repo (Git.world st))).
Proof.
  rewrite !list_branches_matching_patterns_eq. split; [|split].
  - f_equal. f_equal. unfold matched_branches. apply filter_ext. intro b.
    destruct (existsb (fun pattern => fnmatch b pattern) patterns) eqn:E.
    + symmetry. apply existsb_exists. apply existsb_exists in E.
      destruct E as [p [Hp Hm]]. exists p. split; [now apply Hsame | exact Hm].
    + symmetry. apply not_true_iff_false. intro E'.
      apply existsb_exists in E'. destruct E' as [p [Hp Hm]].
      assert (existsb (fun pattern => fnmatch b pattern) patterns = true) as Ht
          by (apply existsb_exists; exists p; split; [now apply Hsame | exact Hm]).
      congruence.
  - f_equal. f_equal. unfold matched_branches.
    induction (map (PyStr.drop 7) _) as [|x l IH]; [reflexivity | exact IH].
  - intros branches st' E. injection E as <- _. unfold matched_branches.
    etransitivity; [apply filter_length_le|].
    rewrite length_map. apply filter_length_le.
Qed.

(** X12, in the small world with the patterns [main], [dev] and the same in
    another order with a repetition. *)
Lemma X12_branches_depend_on_pattern_set_witness :
  (forall p, In p ["main"; "dev"] <-> In p ["dev"; "main"; "main"])
  /\ @Git.list_branches_matching_patterns
       literal_matchers _ Sim.vcs "/dest/g/s/p1" ["main"; "dev"]
       (Sim.start Run.cloned)
     = @Git.list_branches_matching_patterns
         literal_matchers _ Sim.vcs "/dest/g/s/p1" ["dev"; "main"; "main"]
         (Sim.start Run.cloned).
Proof.
  assert (forall p, In p ["main"; "dev"] <-> In p ["dev"; "main"; "main"]) as H.
  { intro p; simpl; split; intros [E | [E | E]]; auto.
    destruct E as [E | []]; auto. }
  split; [exact H|].
  exact (proj1 (@X12_branches_depend_on_pattern_set
                  literal_matchers _ Sim.vcs "/dest/g/s/p1" _ _
                  (Sim.start Run.cloned) H)).
Defined.

Lemma append_nil_r (s : string) : (s ++ "")%string = s.
Proof. induction s as [|c s IH]; simpl; [reflexivity | now rewrite IH]. Qed.

Lemma string_of_list_ascii_app (l l' : list ascii) :
  string_of_list_ascii (l ++ l')
  = (string_of_list_ascii l ++ string_of_list_ascii l')%string.
Proof. induction l as [|c l IH]; simpl; [reflexivity | now rewrite IH]. Qed.

Lemma split_aux_join (c : ascii) (s : string) :
  forall cur,
    PyStr.split_aux c cur s <> []
    /\ PyStr.join (String c "") (PyStr.split_aux c cur s)
       = (string_of_list_ascii (rev cur) ++ s)%string.
Proof.
  induction s as [|a rest IH]; intro cur; simpl.
  - split; [discriminate|]. unfold PyStr.join. simpl. now rewrite append_nil_r.
  - destruct (Ascii.eqb a c) eqn:E.
    + apply Ascii.eqb_eq in E. subst a.
      split; [discriminate|].
      destruct (IH []) as [Hne Hjoin]. unfold PyStr.join in *.
      destruct (PyStr.split_aux c [] rest) as [|y l]; [now contradiction Hne|].
      change (String.concat (String c "") (string_of_list_ascii (rev cur) :: y :: l))
        with (string_of_list_ascii (rev cur) ++ String c ""
                ++ String.concat (String c "") (y :: l))%string.
      rewrite Hjoin. reflexivity.
    + destruct (IH (a :: cur)) as [Hne Hjoin]. split; [exact Hne|].
      rewrite Hjoin. simpl rev. rewrite string_of_list_ascii_app, append_assoc.
      reflexivity.
Qed.

Lemma split_aux_pieces (c : ascii) (s : string) :
  forall cur,
    ~ In c cur ->
    Forall (fun piece => ~ In c (list_ascii_of_string piece))
           (PyStr.split_aux c cur s).
Proof.
  induction s as [|a rest IH]; intros cur Hcur; simpl.
  - constructor; [|constructor].
    rewrite list_ascii_of_string_of_list_ascii. now rewrite <- in_rev.
  - destruct (Ascii.eqb a c) eqn:E.
    + constructor; [|apply IH; intros []].
      rewrite list_ascii_of_string_of_list_ascii. now rewrite <- in_rev.
    + apply IH. intros [-> | H]; [|now apply Hcur].
      now rewrite Ascii.eqb_refl in E.
Qed.

(** X13. When an action carries git options, the options of its clone are
    the recursive flag, the mirror flag and then the pieces of the user's
    string between its commas: joined again with commas the pieces are the
    string the user gave, and no piece holds a comma. Without options, or
    with the empty string, the options are the flags alone. *)
Theorem X13_git_options_split_verbatim (action : Git.GitAction) :
  (forall opts,
      Git.git_options action = Some opts -> opts <> "" ->
      exists pieces,
        Git.multi_options_of action
        = (if Git.recursive action then ["--recursive"] else [])
            ++ (if Git.use_fetch action then ["--mirror"] else [])
            ++ pieces
        /\ PyStr.join "," pieces = opts
        /\ Forall (fun piece => ~ In ","%char (list_ascii_of_string piece))
                  pieces)
  /\ (Git.git_options action = None \/ Git.git_options action = Some "" ->
      Git.multi_options_of action
      = (if Git.recursive action then ["--recursive"] else [])
          ++ (if Git.use_fetch action then ["--mirror"] else [])).
Proof.
  unfold Git.multi_options_of. split.
  - intros opts E Hne. rewrite E.
    destruct opts as [|a rest]; [now contradiction Hne|]. cbn [PyStr.truthy].
    exists (PyStr.split "," (String a rest)). split; [|split].
    + destruct (Git.recursive action), (Git.use_fetch action); reflexivity.
    + unfold PyStr.split. now destruct (split_aux_join "," (String a rest) []).
    + apply split_aux_pieces. intros [].
  - intros [E | E]; rewrite E;
      destruct (Git.recursive action), (Git.use_fetch action); reflexivity.
Qed.

(** X13, for an action with the options [--depth=1,--no-tags]. *)
Lemma X13_git_options_split_verbatim_witness :
  Git.git_options
    (Git.mkGitAction Run.empty_group "/dest/x" true false false
                     (Some "--depth=1,--no-tags"))
  = Some "--depth=1,--no-tags"
  /\ "--depth=1,--no-tags" <> ""
  /\ exists pieces,
      Git.multi_options_of
        (Git.mkGitAction Run.empty_group "/dest/x" true false false
                         (Some "--depth=1,--no-tags"))
      = ["--recursive"] ++ [] ++ pieces
      /\ PyStr.join "," pieces = "--depth=1,--no-tags".
Proof.
  split; [reflexivity|]. split; [discriminate|].
  destruct (proj1 (X13_git_options_split_verbatim
                     (Git.mkGitAction Run.empty_group "/dest/x" true false false
                                      (Some "--depth=1,--no-tags")))
                  "--depth=1,--no-tags" eq_refl)
    as [pieces (E & Hjoin & _)]; [discriminate|].
  exists pieces. split; assumption.
Defined.

(** ** The commands of one action *)

Section CommandDiscipline.
Context {M_ : Matchers} {W : Type} {V : Git.Vcs W}.
Variable P : Git.Call -> Prop.

Lemma adds_refl (st : Git.State W) : adds P st st.
Proof. exists []. split; [now rewrite app_nil_r | constructor]. Qed.

Lemma adds_trans (a b c : Git.State W) : adds P a b -> adds P b c -> adds P a c.
Proof.
  intros [n1 [E1 F1]] [n2 [E2 F2]]. exists (n1 ++ n2).
  split; [now rewrite E2, E1, app_assoc | apply Forall_app; now split].
Qed.

Lemma adds_logged (st : Git.State W) (l : Git.Log) : adds P st (logged st l).
Proof. exists []. split; [now rewrite app_nil_r | constructor]. Qed.

Lemma call_adds (c : Git.Call) (st : Git.State W) :
  P c -> adds P st (snd (Git.call c st)).
Proof.
  intro Hc. unfold Git.call.
  destruct (Git.perform c (Git.world st)) as [[e|] w]; simpl;
    exists [c]; (split; [reflexivity | constructor; [exact Hc | constructor]]).
Qed.

Lemma bind_adds {A B : Type} (c : Git.M W A) (k : A -> Git.M W B)
      (st : Git.State W) :
  adds P st (snd (c st)) ->
  (forall a s, adds P s (snd (k a s))) ->
  adds P st (snd (Git.bind c k st)).
Proof.
  intros Hc Hk. unfold Git.bind.
  destruct (c st) as [[a|e] st1]; simpl in *; [|exact Hc].
  eapply adds_trans; [exact Hc | apply Hk].
Qed.

Lemma try_except_adds {A : Type} (body : Git.M W A)
      (handler : string -> Git.M W A) (st : Git.State W) :
  adds P st (snd (body st)) ->
  (forall m s, adds P s (snd (handler m s))) ->
  adds P st (snd (Git.try_except body handler st)).
Proof.
  intros Hb Hh. unfold Git.try_except.
  destruct (body st) as [[a|[|code|m]] st1]; simpl in *; try exact Hb.
  eapply adds_trans; [exact Hb | apply Hh].
Qed.

Lemma try_except_else_adds {A B : Type} (body : Git.M W A)
      (on_interrupt : Git.M W B) (on_exception : string -> Git.M W B)
      (else_ : A -> Git.M W B) (st : Git.State W) :
  adds P st (snd (body st)) ->
  (forall s, adds P s (snd (on_interrupt s))) ->
  (forall m s, adds P s (snd (on_exception m s))) ->
  (forall a s, adds P s (snd (else_ a s))) ->
  adds P st (snd (Git.try_except_else body on_interrupt on_exception else_ st)).
Proof.
  intros Hb Hi He Hel. unfold Git.try_except_else.
  destruct (body st) as [[a|[|code|m]] st1]; simpl in *;
    try exact Hb; (eapply adds_trans; [exact Hb|]); auto.
Qed.

Lemma log_adds (l : Git.Log) (st : Git.State W) :
  adds P st (snd (Git.log_ l st)).
Proof. apply adds_logged. Qed.

Lemma for_each_adds {A : Type} (g : A -> Git.M W unit) (l : list A) :
  (forall a s, adds P s (snd (g a s))) ->
  forall st, adds P st (snd (for_each g l st)).
Proof.
  intro Hg. induction l as [|a l IH]; intro st; simpl.
  - apply adds_refl.
  - apply bind_adds; [apply Hg | intros _ s; apply IH].
Qed.

End CommandDiscipline.

Section ActionCommands.
Context {M_ : Matchers} {W : Type} {V : Git.Vcs W}.

Lemma reconcile_adds (P : Git.Call -> Prop) (repo : string)
      (action : Git.GitAction) (st : Git.State W) :
  (forall c, is_worktree_call c = true -> P c) ->
  adds P st
       (snd (Git.create_or_update_protected_branch_worktrees repo action st)).
Proof.
  intro Hwt. unfold Git.create_or_update_protected_branch_worktrees.
  destruct (protected_branches (Git.node action)) as [[|q ps]|];
    try apply adds_refl.
  apply bind_adds.
  - rewrite list_branches_matching_patterns_eq. apply adds_refl.
  - intros branches s. rewrite create_or_update_worktrees_eq.
    apply for_each_adds. clear s. intros b s.
    unfold reconcile_branch, Git.bind, Git.ask.
    destruct (Git.os_path_exists _ (Git.world s)).
    + apply try_except_adds; [apply call_adds; now apply Hwt|].
      intros m s'. apply log_adds.
    + apply try_except_adds; [apply call_adds; now apply Hwt|].
      intros m s'. apply log_adds.
Qed.

Lemma reconcile_without_protected (repo : string) (action : Git.GitAction)
      (st : Git.State W) :
  protected_branches (Git.node action) = None ->
  Git.create_or_update_protected_branch_worktrees repo action st
  = (Git.Val tt, st).
Proof.
  intro E. unfold Git.create_or_update_protected_branch_worktrees.
  now rewrite E.
Qed.

Lemma interrupt_handler_adds (P : Git.Call -> Prop) (s : Git.State W) :
  adds P s (snd (Git.bind (Git.log_ Git.fatal_user_interrupted)
                          (fun _ => @Git.sys_exit W unit 0) s)).
Proof. apply adds_logged. Qed.

Lemma update_step_adds (P : Git.Call -> Prop) (action : Git.GitAction)
      (st : Git.State W) :
  P (if Git.use_fetch action then Git.origin_fetch (Git.path action)
     else Git.origin_pull (Git.path action)) ->
  (Git.recursive action = true ->
   P (Git.submodule_update (Git.path action))) ->
  adds P st (snd (Git.update_step action st)).
Proof.
  intros Hsync Hsub. unfold Git.update_step. cbv zeta.
  apply bind_adds.
  - destruct (Git.use_fetch action); simpl; now apply call_adds.
  - intros _ s. apply bind_adds.
    + destruct (Git.recursive action); [apply call_adds; now apply Hsub|].
      apply adds_refl.
    + intros _ s'. apply adds_refl.
Qed.

Lemma clone_step_adds (P : Git.Call -> Prop) (action : Git.GitAction)
      (st : Git.State W) :
  P (Git.clone_from (url (Git.node action)) (Git.path action)
                    (Git.multi_options_of action)) ->
  adds P st (snd (Git.clone_step action st)).
Proof.
  intro Hc. unfold Git.clone_step.
  apply bind_adds; [now apply call_adds | intros _ s; apply adds_refl].
Qed.

End ActionCommands.

(** X14. What one action asks of git. On a valid repository it pulls
    [origin], or fetches it when [use_fetch] is set, never both; it updates
    the submodules only when [recursive] is set; and it never clones. On a
    destination that is no repository it clones, with the url of the node,
    the path of the action and the assembled options, and never pulls or
    fetches [origin]. Beyond that an action only adds or pulls worktrees,
    and it does neither when its node has no protected branches. *)
Theorem X14_commands_of_an_action
        {M_ : Matchers} {W : Type} {V : Git.Vcs W}
        (action : Git.GitAction) (st : Git.State W) :
  (Git.valid_repo (Git.path action) (Git.world st) = true ->
   adds (fun c =>
           c = (if Git.use_fetch action
                then Git.origin_fetch (Git.path action)
                else Git.origin_pull (Git.path action))
           \/ (Git.recursive action = true
               /\ c = Git.submodule_update (Git.path action))
           \/ is_worktree_call c = true)
        st (snd (Git.clone_or_pull_project action st)))
  /\ (Git.valid_repo (Git.path action) (Git.world st) = false ->
      adds (fun c =>
              c = Git.clone_from (url (Git.node action)) (Git.path action)
                                 (Git.multi_options_of action)
              \/ is_worktree_call c = true)
           st (snd (Git.clone_or_pull_project action st)))
  /\ (protected_branches (Git.node action) = None ->
      adds (fun c => is_worktree_call c = false)
           st (snd (Git.clone_or_pull_project action st))).
Proof.
  split; [|split].
  - intro Hrepo. rewrite clone_or_pull_project_update by assumption.
    eapply adds_trans; [apply adds_logged|].
    apply try_except_else_adds.
    + apply update_step_adds; [now left|]. intro Hr. right; left. now split.
    + intro s. apply interrupt_handler_adds.
    + intros m s. apply log_adds.
    + intros repo s. apply reconcile_adds. intros c Hc. right; right. exact Hc.
  - intro Hrepo.
    destruct (String.eqb_spec (type_ (Git.node action)) "project") as [Ht | Ht].
    + rewrite clone_or_pull_project_clone by assumption.
      eapply adds_trans; [apply adds_logged|].
      apply try_except_else_adds.
      * apply clone_step_adds. now left.
      * intro s. apply interrupt_handler_adds.
      * intros m s. apply log_adds.
      * intros repo s. apply reconcile_adds. intros c Hc. now right.
    + rewrite clone_or_pull_project_skip by assumption. apply adds_logged.
  - intro Hnone.
    destruct (Git.valid_repo (Git.path action) (Git.world st)) eqn:Hrepo.
    + rewrite clone_or_pull_project_update by assumption.
      eapply adds_trans; [apply adds_logged|].
      apply try_except_else_adds.
      * apply update_step_adds; [|reflexivity].
        destruct (Git.use_fetch action); reflexivity.
      * intro s. apply interrupt_handler_adds.
      * intros m s. apply log_adds.
      * intros repo s. rewrite reconcile_without_protected by assumption.
        apply adds_refl.
    + destruct (String.eqb_spec (type_ (Git.node action)) "project") as [Ht | Ht].
      * rewrite clone_or_pull_project_clone by assumption.
        eapply adds_trans; [apply adds_logged|].
        apply try_except_else_adds.
        -- apply clone_step_adds. reflexivity.
        -- intro s. apply interrupt_handler_adds.
        -- intros m s. apply log_adds.
        -- intros repo s. rewrite reconcile_without_protected by assumption.
           apply adds_refl.
      * rewrite clone_or_pull_project_skip by assumption. apply adds_logged.
Qed.

(** X14, for project [p1] of [Run], cloned earlier. *)
Lemma X14_commands_of_an_action_witness :
  @Git.valid_repo _ Sim.vcs (Git.path Run.p1_action)
                  (Git.world (Sim.start Run.cloned)) = true
  /\ adds (fun c =>
             c = Git.origin_pull "/dest/g/s/p1"
             \/ (false = true /\ c = Git.submodule_update "/dest/g/s/p1")
             \/ is_worktree_call c = true)
          (Sim.start Run.cloned)
          (snd (@Git.clone_or_pull_project literal_matchers _ Sim.vcs
                                           Run.p1_action (Sim.start Run.cloned))).
Proof.
  split; [reflexivity|].
  exact (proj1 (@X14_commands_of_an_action
                  literal_matchers _ Sim.vcs Run.p1_action
                  (Sim.start Run.cloned)) eq_refl).
Defined.

(** ** Printing and loading again *)

Lemma filter_tree_twice {M : Matchers} (self : GitlabTree) (tree : Node) :
  filter_tree self (filter_tree self tree) = filter_tree self tree.
Proof.
  induction tree as [n t u r d p cs IH] using Node_ind_nested.
  pose proof (filter_tree_children self (mkNode n t u r d p cs)) as E.
  pose proof (filter_tree_attributes self (mkNode n t u r d p cs)) as A.
  rewrite E in A; simpl children in A. rewrite A.
  rewrite (filter_tree_attributes self (with_children _ _)).
  rewrite filter_tree_children. simpl.
  rewrite (verdict_stable self cs IH). reflexivity.
Qed.

Lemma load_printed_file {Text : Type} {C : Codec Text}
      (self other : GitlabTree) (src : Sources Text) (file : string) :
  (forall d, exists d',
        yaml_safe_load (yaml_dump d) = Some d' /\ same_mapping d d') ->
  (forall d, exists d',
        yaml_safe_load (json_dumps d) = Some d' /\ same_mapping d d') ->
  open_file src file = Some (print_tree_yaml self)
  \/ open_file src file = Some (print_tree_json self) ->
  load_file_tree other src file = Some (root self).
Proof.
  intros Hyaml Hjson Hfile.
  unfold load_file_tree, print_tree_yaml, print_tree_json in *.
  destruct Hfile as [-> | ->].
  - destruct (Hyaml (export (root self))) as [d' [-> Hsame]].
    rewrite <- (import_same_mapping _ _ Hsame). apply import_export.
  - destruct (Hjson (export (root self))) as [d' [-> Hsame]].
    rewrite <- (import_same_mapping _ _ Hsame). apply import_export.
Qed.

(** X15. Loading a file that holds the YAML or JSON printed for a tree gives
    that tree filtered with the patterns of the loading object; when the
    printed tree had been filtered with the same patterns, as every loaded
    tree is, loading the file gives back exactly the tree that was
    printed. *)
Theorem X15_printed_tree_loads_back
        {M : Matchers} {Text : Type} {C : Codec Text}
        (Hyaml : forall d, exists d',
              yaml_safe_load (yaml_dump d) = Some d' /\ same_mapping d d')
        (Hjson : forall d, exists d',
              yaml_safe_load (json_dumps d) = Some d' /\ same_mapping d d')
        (self other : GitlabTree) (src : Sources Text) (file : string)
        (Hmode : in_file other = Some file)
        (Hname : file <> "")
        (Hfile : open_file src file = Some (print_tree_yaml self)
                 \/ open_file src file = Some (print_tree_json self)) :
  load_tree other src = Some (filter_tree other (root self))
  /\ (forall tree, root self = filter_tree other tree ->
                   load_tree other src = Some (root self)).
Proof.
  assert (load_tree other src = Some (filter_tree other (root self))) as E.
  { unfold load_tree. rewrite Hmode.
    destruct file as [|a rest]; [now contradiction Hname|]. cbn [PyStr.truthy].
    now rewrite (load_printed_file self other src _ Hyaml Hjson Hfile). }
  split; [exact E|].
  intros tree Ht. rewrite E, Ht. now rewrite filter_tree_twice.
Qed.

(** X15, with texts that are the mappings themselves: [Ex.built] filtered
    with the include pattern [/g/s/p1], printed, and loaded with the same
    pattern. *)
Lemma X15_printed_tree_loads_back_witness :
  in_file loading_p1 = Some "tree.yaml"
  /\ "tree.yaml" <> ""
  /\ open_file printed_p1 "tree.yaml"
     = Some (@print_tree_yaml _ Sim.plain_codec
               (with_root (Ex.tree_of None ["/g/s/p1"] [] None false)
                          filtered_p1))
  /\ @load_tree literal_matchers _ Sim.plain_codec loading_p1 printed_p1
     = Some filtered_p1.
Proof.
  assert (forall d, exists d', Some d = Some d' /\ same_mapping d d') as Hcodec
      by (intro d; exists d; split; [reflexivity | apply same_mapping_refl]).
  assert ("tree.yaml" <> "") as Hname by discriminate.
  split; [reflexivity|]. split; [exact Hname|]. split; [reflexivity|].
  exact (proj2 (@X15_printed_tree_loads_back
                  literal_matchers _ Sim.plain_codec Hcodec Hcodec
                  (with_root (Ex.tree_of None ["/g/s/p1"] [] None false)
                             filtered_p1)
                  loading_p1 printed_p1 "tree.yaml" eq_refl Hname
                  (or_introl eq_refl))
               Ex.built eq_refl).
Defined.

(** ** Worktree calls, and the empty tree *)

Lemma replace_char_result (a b : ascii) (s : string) :
  a <> b ->
  ~ In a (list_ascii_of_string (PyStr.replace_char a b s))
  /\ String.length (PyStr.replace_char a b s) = String.length s.
Proof.
  intro Hab. induction s as [|c s [IH1 IH2]]; simpl; [split; auto|].
  split; [|now rewrite IH2].
  intros [E | H]; [|now apply IH1].
  destruct (Ascii.eqb_spec c a) as [-> | Hc]; congruence.
Qed.

Lemma reconcile_branch_call {M_ : Matchers} {W : Type} {V : Git.Vcs W}
      (repo branch : string) (st : Git.State W) :
  Git.calls (snd (reconcile_branch repo branch st))
  = Git.calls st ++ [worktree_call repo branch (Git.world st)]
  /\ Git.world (snd (reconcile_branch repo branch st))
     = snd (Git.perform (worktree_call repo branch (Git.world st)) (Git.world st))
  /\ fst (reconcile_branch repo branch st)
     = match fst (Git.perform (worktree_call repo branch (Git.world st))
                              (Git.world st)) with
       | None | Some (Git.Exception _) => Git.Val tt
       | Some e => Git.Raise e
       end.
Proof.
  unfold reconcile_branch, worktree_call, sibling_path, Git.bind, Git.ask.
  destruct (Git.os_path_exists _ (Git.world st));
    unfold Git.update_worktree, Git.create_worktree, Git.try_except, Git.call;
    match goal with
    | |- context [Git.perform ?c ?w] =>
        destruct (Git.perform c w) as [[[|code|m]|] w']
    end; simpl; repeat split.
Qed.

(** X16. The calls of the reconciliation are exactly these, in this order:
    for each matched branch that the comparison with [git.HEAD.name] does
    not accept, one call, at the path made by [os.path.join] of the working
    tree of the repository as the world then gives it, [..], and the branch
    name with its slashes turned into dashes: a pull when that path exists
    at that moment, a worktree added for the branch when it does not. An
    error of one call does not keep the next branch from its call; only an
    interrupt or an exit ends the sequence. The last component of the path
    holds no slash and is as long as the branch name. *)
Theorem X16_worktree_calls_target_siblings
        {M_ : Matchers} {W : Type} {V : Git.Vcs W}
        (repo : string) (action : Git.GitAction) (patterns : list string)
        (st : Git.State W)
        (Hprotected : protected_branches (Git.node action) = Some patterns) :
  Git.calls
    (snd (Git.create_or_update_protected_branch_worktrees repo action st))
  = Git.calls st
      ++ worktree_calls
           repo
           (filter (fun b => negb (Git.eq_HEAD_name b))
                   (matched_branches (Git.references repo (Git.world st))
                                     patterns))
           (Git.world st)
  /\ (forall b,
         ~ In "/"%char (list_ascii_of_string (PyStr.replace_char "/" "-" b))
         /\ String.length (PyStr.replace_char "/" "-" b) = String.length b).
Proof.
  split; [|intro b; apply replace_char_result; discriminate].
  unfold Git.create_or_update_protected_branch_worktrees. rewrite Hprotected.
  assert (forall l s,
             Git.calls (snd (for_each (reconcile_branch repo) l s))
             = Git.calls s ++ worktree_calls repo l (Git.world s)) as Hrun.
  { induction l as [|b l IH]; intro s; simpl; [now rewrite app_nil_r|].
    destruct (reconcile_branch_call repo b s) as (Hc & Hw & Hr).
    unfold Git.bind.
    destruct (reconcile_branch repo b s) as [res s1]; simpl in Hc, Hw, Hr.
    destruct (Git.perform (worktree_call repo b (Git.world s)) (Git.world s))
      as [[[|code|m]|] w']; simpl in Hw, Hr; subst res; simpl;
      rewrite ?IH, Hc, ?Hw, <- ?app_assoc; reflexivity. }
  destruct patterns as [|q ps].
  - simpl. unfold matched_branches.
    assert (forall l : list string, filter (fun _ => false) l = []) as E
        by (induction l; auto).
    simpl. rewrite E. simpl. now rewrite app_nil_r.
  - unfold Git.bind at 1. rewrite list_branches_matching_patterns_eq.
    rewrite create_or_update_worktrees_eq. apply Hrun.
Qed.

(** X16, for project [p1] of [Run], cloned earlier: one worktree added for
    [main], next to the clone. *)
Lemma X16_worktree_calls_target_siblings_witness :
  protected_branches (Git.node Run.p1_action) = Some ["main"]
  /\ Git.calls
       (snd (@Git.create_or_update_protected_branch_worktrees
               literal_matchers _ Sim.vcs "/dest/g/s/p1" Run.p1_action
               (Sim.start Run.cloned)))
     = [Git.worktree_add "/dest/g/s/p1" "/dest/g/s/p1/../main" "main"].
Proof.
  split; [reflexivity|].
  rewrite (proj1 (@X16_worktree_calls_target_siblings
                    literal_matchers _ Sim.vcs "/dest/g/s/p1" Run.p1_action
                    ["main"] (Sim.start Run.cloned) eq_refl)).
  reflexivity.
Defined.

Lemma is_empty_leaf (self : GitlabTree) : is_empty self = is_leaf (root self).
Proof.
  unfold is_empty, is_leaf. destruct (root self) as [n t u r d p cs]; simpl.
  destruct cs; reflexivity.
Qed.

(** X17. After a load from the server into the root of [__init__], the tree
    is empty exactly when the listing of the groups failed or showed no
    group without a parent; failures below a top-level group never make the
    tree empty. *)
Theorem X17_empty_iff_no_top_level_group
        (self : GitlabTree) (groups : Listing Group)
        (Hroot : root self = initial_root (self_url self)) :
  is_empty (with_root self (load_gitlab_tree self groups)) = true
  <-> match groups with
      | Listed gs =>
          forall g, In g gs -> parent_id g <> None
      | _ => True
      end.
Proof.
  rewrite is_empty_leaf. unfold with_root; cbn [root].
  destruct groups as [gs| |].
  - pose proof (top_level_names self gs Hroot) as Hn.
    unfold is_leaf. split.
    + intros He g Hg Hnone.
      destruct (children (load_gitlab_tree self (Listed gs))); [|discriminate].
      cbn [map] in Hn. symmetry in Hn. apply map_eq_nil in Hn.
      assert (In g (filter (fun g => match parent_id g with
                                     | None => true | Some _ => false end) gs))
        as Hin by (apply filter_In; split; [exact Hg | now rewrite Hnone]).
      rewrite Hn in Hin. contradiction.
    + intro H.
      assert (filter (fun g => match parent_id g with
                               | None => true | Some _ => false end) gs = [])
        as E.
      { clear Hn. induction gs as [|g gs IH]; [reflexivity|]. simpl.
        destruct (parent_id g) eqn:Ep.
        - apply IH. intros x Hx. apply H. now right.
        - exfalso. apply (H g); [now left | exact Ep]. }
      rewrite E in Hn. cbn [map] in Hn. apply map_eq_nil in Hn. now rewrite Hn.
  - unfold load_gitlab_tree. rewrite Hroot. split; reflexivity || auto.
  - unfold load_gitlab_tree. rewrite Hroot. split; reflexivity || auto.
Qed.

(** X17, for a listing that shows only the subgroup [s]. *)
Lemma X17_empty_iff_no_top_level_group_witness :
  root (Ex.tree_of (Some PATH) [] [] None false)
  = initial_root (self_url (Ex.tree_of (Some PATH) [] [] None false))
  /\ is_empty (with_root (Ex.tree_of (Some PATH) [] [] None false)
                         (load_gitlab_tree
                            (Ex.tree_of (Some PATH) [] [] None false)
                            (Listed [Ex.s]))) = true.
Proof.
  split; [reflexivity|].
  apply (proj2 (X17_empty_iff_no_top_level_group
                  (Ex.tree_of (Some PATH) [] [] None false) (Listed [Ex.s])
                  eq_refl)).
  intros g [<- | []]. discriminate.
Defined.
